(** * CDA downloader: a shallow embedding of the retrieval pipeline

    The development follows the Python sources of the repository:
    - [src/utils/helpers.py]      quality ranking, sorting, file names;
    - [src/utils/exceptions.py]   the exception classes;
    - [src/core/video_info.py]    [VideoInfo] and [VideoInfoService];
    - [src/core/downloader.py]    [DownloaderService];
    - [src/core/auth.py]          [AuthService];
    - [src/core/search.py]        [SearchService];
    - [src/cli/cli_handler.py]    the batch download and the folder crawl.

    Python [str] values are modelled by [string] (code points 0..255),
    Python [int] by [Z], a [dict] by an association list in insertion
    order, and the objects mutated by the services by one record, [World],
    threaded through a state-and-exception monad in which a raised
    exception keeps the mutations made before it, as in Python. *)

From Stdlib Require Import String Ascii ZArith List Bool Lia Arith.
From Stdlib Require Import Permutation Sorted.
Import ListNotations.
Open Scope string_scope.
Open Scope Z_scope.

(* ===================================================================== *)
(** * Part I: definitions *)
(* ===================================================================== *)

(** ** Python string primitives *)

Module pystr.

Definition code (c : ascii) : nat := nat_of_ascii c.

(** [\d] of the [re] module, on code points below 256. *)
Definition is_digit (c : ascii) : bool :=
  ((48 <=? code c) && (code c <=? 57))%nat.

(** [\s] of the [re] module and [str.isspace], on code points below 256. *)
Definition is_space (c : ascii) : bool :=
  let n := code c in
  (((9 <=? n) && (n <=? 13)) || ((28 <=? n) && (n <=? 32))
   || (n =? 133) || (n =? 160))%nat.

(** [str.lower] on one code point below 256: the ASCII capitals and the
    Latin-1 capitals (all of 192..222 but the multiplication sign). *)
Definition lower_char (c : ascii) : ascii :=
  let n := code c in
  if (((65 <=? n) && (n <=? 90))
      || ((192 <=? n) && (n <=? 222) && negb (n =? 215)))%nat
  then ascii_of_nat (n + 32) else c.

Fixpoint lower (s : string) : string :=
  match s with
  | EmptyString => EmptyString
  | String c r => String (lower_char c) (lower r)
  end.

(** [sub in s] for two strings. *)
Fixpoint contains (sub s : string) : bool :=
  String.prefix sub s
  || match s with
     | EmptyString => false
     | String _ r => contains sub r
     end.

(** [s.startswith(p)]. *)
Definition startswith (s p : string) : bool := String.prefix p s.

Fixpoint lstrip (s : string) : string :=
  match s with
  | EmptyString => EmptyString
  | String c r => if is_space c then lstrip r else s
  end.

Fixpoint rev_acc (s acc : string) : string :=
  match s with
  | EmptyString => acc
  | String c r => rev_acc r (String c acc)
  end.

Definition rev (s : string) : string := rev_acc s EmptyString.

(** [s.strip()]. *)
Definition strip (s : string) : string := rev (lstrip (rev (lstrip s))).

Fixpoint all_digits (s : string) : bool :=
  match s with
  | EmptyString => true
  | String c r => is_digit c && all_digits r
  end.

(** The maximal run of digits at the head of [s]. *)
Fixpoint digit_run (s : string) : string :=
  match s with
  | EmptyString => EmptyString
  | String c r => if is_digit c then String c (digit_run r) else EmptyString
  end.

(** [re.search(r'(\d+)', s)]: group 1 of the leftmost match, the greedy
    run of digits that starts at the first digit of [s]. *)
Fixpoint search_digits (s : string) : option string :=
  match s with
  | EmptyString => None
  | String c r => if is_digit c then Some (digit_run s) else search_digits r
  end.

Definition digit_val (c : ascii) : Z := Z.of_nat (code c) - 48.

Fixpoint int_acc (s : string) (acc : Z) : Z :=
  match s with
  | EmptyString => acc
  | String c r => int_acc r (10 * acc + digit_val c)
  end.

(** [int(s)] on a string of decimal digits. *)
Definition int (s : string) : Z := int_acc s 0.

(** Decimal digits grouped by single underscores, as [int] accepts them:
    a digit first, a digit last, and never two underscores in a row.
    [after_digit] tells that the previous character was a digit. *)
Fixpoint grouped_digits (s : string) (after_digit : bool) : bool :=
  match s with
  | EmptyString => after_digit
  | String c r =>
      if is_digit c then grouped_digits r true
      else if Nat.eqb (code c) 95 then after_digit && grouped_digits r false
      else false
  end.

Fixpoint remove_underscores (s : string) : string :=
  match s with
  | EmptyString => EmptyString
  | String c r =>
      if Nat.eqb (code c) 95 then remove_underscores r
      else String c (remove_underscores r)
  end.

(** [int(s)] on any string: white space at both ends is passed over, a
    sign may come first, and what follows must be grouped digits; [None]
    stands for the [ValueError] that [int] raises on anything else. *)
Definition int_of_str (s : string) : option Z :=
  let t := strip s in
  let signed :=
    match t with
    | String c r =>
        if Nat.eqb (code c) 43 then (1, r)
        else if Nat.eqb (code c) 45 then (-1, r)
        else (1, t)
    | EmptyString => (1, t)
    end in
  if grouped_digits (snd signed) false
  then Some (fst signed * int (remove_underscores (snd signed)))
  else None.

End pystr.

(** ** [src/utils/helpers.py] *)

Module helpers.
Import pystr.

(** The characters removed by [sanitize_filename]: backslash, slash,
    star, question mark, colon, double quote, the angle brackets and the
    bar, by code point. *)
Definition forbidden (c : ascii) : bool :=
  existsb (Nat.eqb (code c)) [92; 47; 42; 63; 58; 34; 60; 62; 124]%nat.

Fixpoint remove_forbidden (s : string) : string :=
  match s with
  | EmptyString => EmptyString
  | String c r =>
      if forbidden c then remove_forbidden r
      else String c (remove_forbidden r)
  end.

(** [re.sub] of every run of white space by one underscore; [in_run]
    tells that the previous character belonged to the run being replaced. *)
Fixpoint collapse_spaces (in_run : bool) (s : string) : string :=
  match s with
  | EmptyString => EmptyString
  | String c r =>
      if is_space c
      then if in_run then collapse_spaces true r
           else String "_"%char (collapse_spaces true r)
      else String c (collapse_spaces false r)
  end.

Definition sanitize_filename (title : string) : string :=
  let safe_title := remove_forbidden title in
  let safe_title := collapse_spaces false safe_title in
  String.substring 0 80 safe_title.

Definition create_video_filename (title quality extension : string) : string :=
  sanitize_filename title ++ "_" ++ quality ++ "." ++ extension.

(** The literal [quality_map] of [parse_quality_from_string], in the
    order in which the dictionary is written and iterated. *)
Definition quality_map : list (string * Z) :=
  [("hd", 720); ("fhd", 1080); ("qhd", 1440); ("uhd", 2160);
   ("4k", 2160); ("sd", 480); ("ld", 360)].

(** [for key, value in quality_map.items(): if key in lower_quality:
    return value]. *)
Fixpoint first_key_in (items : list (string * Z)) (lower_quality : string)
  : option Z :=
  match items with
  | [] => None
  | (key, value) :: rest =>
      if contains key lower_quality then Some value
      else first_key_in rest lower_quality
  end.

Definition parse_quality_from_string (quality_str : string) : Z :=
  match search_digits quality_str with
  | Some group1 => int group1
  | None =>
      match first_key_in quality_map (lower quality_str) with
      | Some value => value
      | None => 0
      end
  end.

(** [sorted(quality_values, key=lambda x: x[1], reverse=True)].  Python's
    sort is stable, also under [reverse=True]: elements with equal keys
    keep their order.  The stable descending sort is written as an
    insertion sort; an element is put in front of the first element
    whose key does not exceed its own. *)
Fixpoint insert_desc (x : string * Z) (l : list (string * Z))
  : list (string * Z) :=
  match l with
  | [] => [x]
  | y :: r => if snd y <=? snd x then x :: l else y :: insert_desc x r
  end.

Definition sorted_desc (l : list (string * Z)) : list (string * Z) :=
  fold_right insert_desc [] l.

Definition sort_qualities (qualities : list string) : list string :=
  let quality_values :=
    map (fun q => (q, parse_quality_from_string q)) qualities in
  let sorted_qualities := sorted_desc quality_values in
  map fst sorted_qualities.

End helpers.


(** ** [src/utils/exceptions.py], and the built-in exceptions the code meets *)

Inductive exn : Type :=
| AuthenticationError
| TokenError
| VideoInfoError
| DownloadError
| SearchError
| FileError
| RequestException   (* requests.RequestException and its subclasses *)
| IOError
| KeyError
| ValueError
| KeyboardInterrupt. (* a BaseException that is not an Exception *)

(** [isinstance(e, Exception)]: what a clause [except Exception] catches. *)
Definition is_Exception (e : exn) : bool :=
  match e with
  | KeyboardInterrupt => false
  | _ => true
  end.

Definition exn_eqb (a b : exn) : bool :=
  match a, b with
  | AuthenticationError, AuthenticationError
  | TokenError, TokenError
  | VideoInfoError, VideoInfoError
  | DownloadError, DownloadError
  | SearchError, SearchError
  | FileError, FileError
  | RequestException, RequestException
  | IOError, IOError
  | KeyError, KeyError
  | ValueError, ValueError
  | KeyboardInterrupt, KeyboardInterrupt => true
  | _, _ => false
  end.

(** The outcome of a Python call: a returned value or a raised exception. *)
Inductive result (A : Type) : Type :=
| Return (a : A)
| Raise (e : exn).
Arguments Return {A} a.
Arguments Raise {A} e.

(** ** Dictionaries in insertion order *)

Module dict.

Fixpoint get {V : Type} (k : string) (d : list (string * V)) : option V :=
  match d with
  | [] => None
  | (k', v) :: r => if String.eqb k' k then Some v else get k r
  end.

(** [k in d]. *)
Definition mem {V : Type} (k : string) (d : list (string * V)) : bool :=
  match get k d with
  | Some _ => true
  | None => false
  end.

(** [d[k] = v]: an existing key keeps its place, a new key goes last. *)
Fixpoint set {V : Type} (k : string) (v : V) (d : list (string * V))
  : list (string * V) :=
  match d with
  | [] => [(k, v)]
  | (k', v') :: r =>
      if String.eqb k' k then (k', v) :: r else (k', v') :: set k v r
  end.

(** [list(d.keys())]. *)
Definition keys {V : Type} (d : list (string * V)) : list string := map fst d.

End dict.

(** ** The pages as the code observes them

    The services never look at markup directly: they ask BeautifulSoup
    for the first element matching a selector and [re] for the groups of
    a pattern.  A response therefore carries, next to its text, the
    answers to exactly the queries the code makes on it. *)

Record Tag : Type := mkTag {
  text : string;
  attrs : list (string * string)
}.

(** [tag.get(name)]. *)
Definition tag_get (t : Tag) (name : string) : option string :=
  dict.get name (attrs t).

(** Truth value of an optional string: [None] and the empty string are false. *)
Definition truthy (s : option string) : bool :=
  match s with
  | Some EmptyString | None => false
  | Some _ => true
  end.

(** [a or b] on optional strings. *)
Definition str_or (a b : option string) : option string :=
  if truthy a then a else b.

(** [a or b] on optional tags; a [Tag] is always true. *)
Definition tag_or (a b : option Tag) : option Tag :=
  match a with
  | Some _ => a
  | None => b
  end.

(** One [<script>] of the login page: [script.string] and group 2 of the
    token pattern searched in it. *)
Record LoginScript : Type := mkLoginScript {
  login_script_string : option string;
  token_pattern_group2 : option string
}.

Record LoginView : Type := mkLoginView {
  input__token : option Tag;        (* find('input', {'name': '_token'}) *)
  input_csrf_token : option Tag;    (* find('input', {'name': 'csrf_token'}) *)
  input_token : option Tag;         (* find('input', {'name': 'token'}) *)
  meta_csrf_token : option Tag;     (* find('meta', {'name': 'csrf-token'}) *)
  login_scripts : list LoginScript  (* find_all('script') *)
}.

(** What [get_video_info] reads on a video page.  [player_data_scripts]
    has one entry for each [<script>] holding [player_data]: the pairs
    (quality, [data['url']] when [data] has it) that the loop over
    [player_data['video']['qualities']] visits before it ends or an
    exception, caught and logged on the spot, stops it. *)
Record VideoView : Type := mkVideoView {
  premium_info : option Tag;        (* select_one('.premium-info') *)
  h1_title : option Tag;            (* select_one('h1.title') *)
  og_image : option Tag;            (* find('meta', {'property': 'og:image'}) *)
  description_el : option Tag;      (* select_one('.description') *)
  user_name_el : option Tag;        (* select_one('.user-name') *)
  duration_el : option Tag;         (* select_one('.duration') *)
  views_group1 : option (option string);
    (* select_one('.views'), then group 1 of the digits pattern in its text *)
  player_data_scripts : list (list (string * option string));
  download_btn : option Tag         (* select_one('a.downloadBtn') *)
}.

(** One candidate container of a listing page, [element]. *)
Record Element : Type := mkElement {
  a_link_title : option Tag;        (* select_one('a.link-title') *)
  span_title : option Tag;          (* select_one('span.title') *)
  text_container_h3 : option Tag;   (* select_one('div.text-container h3') *)
  a_thumbnail : option Tag;         (* select_one('a.thumbnail') *)
  a_link : option Tag;              (* select_one('a.link') *)
  premium_icon : option Tag;        (* select_one('.premium-icon, .label-premium') *)
  img : option Tag;                 (* select_one('img') *)
  el_duration : option Tag;         (* select_one('.duration') *)
  el_user_name : option Tag;        (* select_one('.user-name') *)
  el_views : option Tag             (* select_one('.views') *)
}.

Record ListingView : Type := mkListingView {
  login_premium_requied : option Tag;  (* select_one('.login-premium-requied') *)
  video_elements : list Element
    (* select('div.video-clip-wrapper, div.video-clip, div.video-cover') *)
}.

(** How the body of a streamed response ends. *)
Inductive StreamEnd : Type :=
| StreamDone
| StreamBroken        (* a RequestException raised by iter_content *)
| StreamInterrupted.  (* the user interrupts the transfer *)

Record Response : Type := mkResponse {
  response_text : string;
  login_view : LoginView;
  video_view : VideoView;
  listing_view : ListingView;
  quality_btns : list Tag;          (* select('a.quality-btn') *)
  content_length : option string;   (* headers.get('content-length') *)
  chunks : list Z;                  (* sizes of the chunks of iter_content *)
  stream_end : StreamEnd
}.

(** What [session.get] / [session.post] followed by [raise_for_status]
    does: a response, a [RequestException], or an interrupt by the user
    while the call blocks. *)
Inductive HttpResult : Type :=
| Responded (r : Response)
| Failed
| Interrupted.

Inductive Param : Type :=
| PStr (s : string)
| PInt (z : Z).

Inductive Request : Type :=
| GET (url : string) (params : list (string * Param))
| POST (url : string) (data : list (string * Param)).

Inductive Path : Type := mkPath (p : string).

(** [directory / name]. *)
Definition joinpath (directory : Path) (name : string) : Path :=
  match directory with
  | mkPath p => mkPath (p ++ "/" ++ name)
  end.

Definition path_eqb (a b : Path) : bool :=
  match a, b with
  | mkPath p, mkPath q => String.eqb p q
  end.

(** The path holds a NUL character: [open] refuses such a path with
    [ValueError] (embedded null byte) before the disk is asked. *)
Fixpoint holds_nul (s : string) : bool :=
  match s with
  | EmptyString => false
  | String c r => Ascii.eqb c Ascii.zero || holds_nul r
  end.

Definition has_nul (p : Path) : bool :=
  match p with
  | mkPath s => holds_nul s
  end.

(** The surroundings of the program: the site, which may answer a request
    differently depending on the requests the session made before; the
    verdict of the URL parser of [requests] on an address that has the
    scheme http or https (a host it can read, a port in range);  the disk,
    which may refuse to open a file and may refuse a write, depending on
    the file, the bytes written to it so far and the bytes to write; and
    the two URL patterns of [extract_video_id_from_url]. *)
Record Env : Type := mkEnv {
  server : list Request -> Request -> HttpResult;
  accepts_url : string -> bool;                 (* no InvalidURL on the address *)
  disk_ok : Path -> bool;                       (* open(filepath, 'wb') works *)
  write_ok : Path -> Z -> Z -> bool;            (* f.write(chunk) works *)
  video_pattern : string -> option string;      (* cda\.pl/video/(\w+) *)
  user_pattern : string -> option (string * string)  (* cda\.pl/(\w+)/(\w+) *)
}.

(** The mutable objects of a [CLIHandler]: the shared session (the
    requests it has sent), [AuthService.logged_in] and [.username],
    [DownloaderService.download_dir], and the files written. *)
Record World : Type := mkWorld {
  history : list Request;
  logged_in : bool;
  username : option string;
  download_dir : Path;
  files : list (Path * Z)
}.

Definition set_history (h : list Request) (w : World) : World :=
  mkWorld h (logged_in w) (username w) (download_dir w) (files w).

Definition set_auth (l : bool) (u : option string) (w : World) : World :=
  mkWorld (history w) l u (download_dir w) (files w).

Definition set_download_dir (d : Path) (w : World) : World :=
  mkWorld (history w) (logged_in w) (username w) d (files w).

Definition set_files (f : list (Path * Z)) (w : World) : World :=
  mkWorld (history w) (logged_in w) (username w) (download_dir w) f.

(** ** State and exceptions *)

Definition M (A : Type) : Type := World -> World * result A.

Definition ret {A : Type} (a : A) : M A := fun w => (w, Return a).

Definition raise {A : Type} (e : exn) : M A := fun w => (w, Raise e).

Definition bind {A B : Type} (m : M A) (f : A -> M B) : M B :=
  fun w =>
    match m w with
    | (w', Return a) => f a w'
    | (w', Raise e) => (w', Raise e)
    end.

Notation "'let*' x ':=' m 'in' k" := (bind m (fun x => k))
  (at level 10, x name, m at level 100, k at level 200).

Definition lift {A : Type} (r : result A) : M A := fun w => (w, r).

Definition read {A : Type} (f : World -> A) : M A := fun w => (w, Return (f w)).

Definition update (f : World -> World) : M unit := fun w => (f w, Return tt).

(** [try: m  except <handled>: h]. *)
Definition try_except {A : Type} (m : M A) (handled : exn -> bool)
  (h : exn -> M A) : M A :=
  fun w =>
    match m w with
    | (w', Return a) => (w', Return a)
    | (w', Raise e) => if handled e then h e w' else (w', Raise e)
    end.

(** [try: m  finally: fin]. *)
Definition try_finally {A : Type} (m : M A) (fin : M unit) : M A :=
  fun w =>
    match m w with
    | (w', r) =>
        match fin w' with
        | (w'', Return _) => (w'', r)
        | (w'', Raise e) => (w'', Raise e)
        end
    end.

(** ** [src/config.py] *)

Module config.

Definition base_url : string := "https://www.cda.pl".
Definition login_url : string := "https://www.cda.pl/login".

End config.

(** ** The session *)

Section Session.

Variable env : Env.

(** [session.get(url, params=...)] or [session.post(url, data=...)]
    followed by [raise_for_status()]. *)
Definition send (req : Request) : M Response :=
  fun w =>
    let w' := set_history (history w ++ [req]) w in
    match server env (history w) req with
    | Responded r => (w', Return r)
    | Failed => (w', Raise RequestException)
    | Interrupted => (w', Raise KeyboardInterrupt)
    end.

(** The address starts, after leading white space and in any case of
    letters, with http:// or https://.  An address that does not (a
    relative link such as /video/1, the empty string, a host without a
    scheme, another scheme) never leaves [requests]: preparing it raises
    [MissingSchema] or [InvalidURL], and the session has no adapter for
    another scheme and raises [InvalidSchema]. *)
Definition has_http_scheme (u : string) : bool :=
  let l := pystr.lower (pystr.lstrip u) in
  pystr.startswith l "http://" || pystr.startswith l "https://".

(** An address for which [session.get] gets as far as sending.  The
    request is recorded as the code made it, with the address as it was
    passed. *)
Definition sendable (u : string) : bool :=
  has_http_scheme u && accepts_url env u.

(** [session.get] on an address that the code did not build itself, and
    that may be [None]: an address that is not [sendable] ([None], which
    is turned into the string None, included) is refused with a subclass
    of [RequestException] before anything is sent. *)
Definition session_get (url : option string) (params : list (string * Param))
  : M Response :=
  match url with
  | Some u =>
      if sendable u then send (GET u params) else raise RequestException
  | None => raise RequestException
  end.

End Session.

(** ** [src/core/auth.py]: [AuthService] *)

Module auth.
Import pystr.

Section AuthService.

Variable env : Env.

(** The value of the token element: [get('value') or get('content')],
    kept when it is true. *)
Definition token_value_of (token_input : option Tag) : option string :=
  match token_input with
  | Some t =>
      let token_value := str_or (tag_get t "value") (tag_get t "content") in
      if truthy token_value then token_value else None
  | None => None
  end.

(** The loop over the scripts of the login page: the first script whose
    text mentions csrf or token and in which the token pattern matches. *)
Fixpoint token_in_scripts (scripts : list LoginScript) : option string :=
  match scripts with
  | [] => None
  | script :: rest =>
      match login_script_string script with
      | Some s =>
          if truthy (Some s)
             && (contains "csrf" (lower s) || contains "token" (lower s))
          then match token_pattern_group2 script with
               | Some g => Some g
               | None => token_in_scripts rest
               end
          else token_in_scripts rest
      | None => token_in_scripts rest
      end
  end.

Definition get_csrf_token : M string :=
  try_except
    (let* login_page := send env (GET config.login_url []) in
     let soup := login_view login_page in
     let token_input :=
       tag_or (input__token soup)
         (tag_or (input_csrf_token soup)
            (tag_or (input_token soup) (meta_csrf_token soup))) in
     match token_value_of token_input with
     | Some token_value => ret token_value
     | None =>
         match token_in_scripts (login_scripts soup) with
         | Some g => ret g
         | None => raise TokenError
         end
     end)
    (exn_eqb RequestException)
    (fun _ => raise TokenError).

Definition login (username_ password : string) : M bool :=
  let* already := read logged_in in
  if already then ret true
  else
    try_except
      (let* csrf_token := get_csrf_token in
       let login_data :=
         [("username", PStr username_); ("password", PStr password);
          ("_token", PStr csrf_token); ("remember", PStr "1")] in
       let* response := send env (POST config.login_url login_data) in
       if contains "premium" (lower (response_text response))
          && contains (lower username_) (lower (response_text response))
       then
         let* _ := update (set_auth true (Some username_)) in
         ret true
       else ret false)
      (fun e => exn_eqb TokenError e || exn_eqb RequestException e)
      (fun e =>
         match e with
         | TokenError => raise TokenError
         | _ => raise AuthenticationError
         end).

Definition logout : M bool :=
  let* l := read logged_in in
  if negb l then ret true
  else
    try_except
      (let logout_url := config.base_url ++ "/logout" in
       let* response := send env (GET logout_url []) in
       let* _ := update (set_auth false None) in
       ret true)
      (exn_eqb RequestException)
      (fun _ => ret false).

Definition ensure_logged_in : M bool :=
  let* l := read logged_in in
  if negb l then raise AuthenticationError else ret true.

End AuthService.

End auth.

(** ** [src/core/video_info.py]: [VideoInfo] and [VideoInfoService] *)

Module video_info.
Import pystr.

Record VideoInfo : Type := mkVideoInfo {
  title : string;
  video_id : string;
  download_links : list (string * string);
  thumbnail : option string;
  description : option string;
  author : option string;
  duration : option string;
  views : option Z
}.

(** [d[k]], which raises [KeyError] on a missing key. *)
Definition item (k : string) (d : list (string * string)) : result string :=
  match dict.get k d with
  | Some v => Return v
  | None => Raise KeyError
  end.

Definition get_best_quality (self : VideoInfo) : result (string * string) :=
  match download_links self with
  | [] => Raise VideoInfoError
  | _ :: _ =>
      let sorted_qualities :=
        helpers.sort_qualities (dict.keys (download_links self)) in
      match sorted_qualities with
      | [] => Raise VideoInfoError
      | best_quality :: _ =>
          match item best_quality (download_links self) with
          | Return u => Return (best_quality, u)
          | Raise e => Raise e
          end
      end
  end.

Definition get_download_link (self : VideoInfo)
  (preferred_quality : option string) : result (string * string) :=
  match download_links self with
  | [] => Raise VideoInfoError
  | _ :: _ =>
      match preferred_quality with
      | Some p =>
          if truthy preferred_quality && dict.mem p (download_links self)
          then match item p (download_links self) with
               | Return u => Return (p, u)
               | Raise e => Raise e
               end
          else get_best_quality self
      | None => get_best_quality self
      end
  end.

(** [s.replace(' ', '')]. *)
Fixpoint remove_blanks (s : string) : string :=
  match s with
  | EmptyString => EmptyString
  | String c r =>
      if Nat.eqb (code c) 32 then remove_blanks r
      else String c (remove_blanks r)
  end.

(** [int(s)] on group 1 of the views pattern once its blanks are removed:
    digits, possibly with other white space left inside, on which [int]
    raises [ValueError]. *)
Definition int_of_views (s : string) : result Z :=
  match s with
  | EmptyString => Raise ValueError
  | _ => if all_digits s then Return (int s) else Raise ValueError
  end.

Section VideoInfoService.

Variable env : Env.

Definition extract_video_id_from_url (url : string) : result string :=
  match video_pattern env url with
  | Some g1 => Return g1
  | None =>
      match user_pattern env url with
      | Some (_, g2) => Return g2
      | None => Raise VideoInfoError
      end
  end.

(** The assignments [download_links[quality] = data['url']] of one script. *)
Definition add_player_data (links : list (string * string))
  (entries : list (string * option string)) : list (string * string) :=
  fold_left
    (fun acc qd =>
       match snd qd with
       | Some url => dict.set (fst qd) url acc
       | None => acc
       end)
    entries links.

(** The assignments made from the anchors of the download page. *)
Definition add_quality_links (links : list (string * string))
  (quality_links : list Tag) : list (string * string) :=
  fold_left
    (fun acc link =>
       let quality := strip (text link) in
       let url := tag_get link "href" in
       match url with
       | Some u => if truthy url then dict.set quality u acc else acc
       | None => acc
       end)
    quality_links links.

Definition _extract_download_links (soup : VideoView)
  : M (list (string * string)) :=
  let download_links := fold_left add_player_data (player_data_scripts soup) [] in
  match download_links with
  | _ :: _ => ret download_links
  | [] =>
      match download_btn soup with
      | Some download_button =>
          let download_url := tag_get download_button "href" in
          if truthy download_url then
            try_except
              (let* response := session_get env download_url [] in
               ret (add_quality_links download_links (quality_btns response)))
              is_Exception
              (fun _ => ret download_links)
          else ret download_links
      | None => ret download_links
      end
  end.

Definition get_video_info (video_url : option string) : M VideoInfo :=
  try_except
    (let* response := session_get env video_url [] in
     let soup := video_view response in
     let walled :=
       match premium_info soup with
       | Some t => contains "zaloguj" (lower (text t))
       | None => false
       end in
     if walled then raise AuthenticationError
     else
       let* video_id_ :=
         lift (match video_url with
               | Some u => extract_video_id_from_url u
               | None => Raise VideoInfoError
               end) in
       let title_ :=
         match h1_title soup with
         | Some t => strip (text t)
         | None => "film_bez_tytulu"
         end in
       let thumbnail_ :=
         match og_image soup with
         | Some t => tag_get t "content"
         | None => None
         end in
       let description_ := option_map (fun t => strip (text t)) (description_el soup) in
       let author_ := option_map (fun t => strip (text t)) (user_name_el soup) in
       let duration_ := option_map (fun t => strip (text t)) (duration_el soup) in
       let* views_ :=
         lift (match views_group1 soup with
               | Some (Some g) =>
                   match int_of_views (remove_blanks g) with
                   | Return n => Return (Some n)
                   | Raise e => Raise e
                   end
               | _ => Return None
               end) in
       let* download_links_ := _extract_download_links soup in
       match download_links_ with
       | [] => raise VideoInfoError
       | _ :: _ =>
           ret (mkVideoInfo title_ video_id_ download_links_ thumbnail_
                  description_ author_ duration_ views_)
       end)
    (exn_eqb RequestException)
    (fun _ => raise VideoInfoError).

End VideoInfoService.

End video_info.

(** ** [src/core/downloader.py]: [DownloaderService] *)

Module downloader.
Import pystr video_info.

(** The loop [for quality in video_info.download_links: if
    preferred_quality in quality: return ...]: the first key, in the
    order of the dictionary, that contains the preferred string. *)
Fixpoint first_containing (preferred_quality : string) (qualities : list string)
  : option string :=
  match qualities with
  | [] => None
  | quality :: rest =>
      if contains preferred_quality quality then Some quality
      else first_containing preferred_quality rest
  end.

Definition _select_quality (video_info : VideoInfo)
  (preferred_quality : option string) : result (string * string) :=
  match preferred_quality with
  | Some p =>
      if truthy preferred_quality then
        if dict.mem p (download_links video_info)
        then match item p (download_links video_info) with
             | Return u => Return (p, u)
             | Raise e => Raise e
             end
        else
          match first_containing p (dict.keys (download_links video_info)) with
          | Some quality =>
              match item quality (download_links video_info) with
              | Return u => Return (quality, u)
              | Raise e => Raise e
              end
          | None => get_best_quality video_info
          end
      else get_best_quality video_info
  | None => get_best_quality video_info
  end.

(** [open(filepath, 'wb')] creates or empties the file. *)
Fixpoint write_file (filepath : Path) (size : Z) (fs : list (Path * Z))
  : list (Path * Z) :=
  match fs with
  | [] => [(filepath, size)]
  | (p, n) :: r =>
      if path_eqb p filepath then (p, size) :: r
      else (p, n) :: write_file filepath size r
  end.

Section DownloaderService.

Variable env : Env.

(** The loop over [iter_content], with [downloaded] bytes written so far:
    an empty chunk is passed over, and a write that the disk refuses
    raises [IOError] and leaves the file with the bytes written before. *)
Fixpoint write_chunks (filepath : Path) (cs : list Z) (downloaded : Z) : M Z :=
  match cs with
  | [] => ret downloaded
  | size :: rest =>
      if 0 <? size then
        if write_ok env filepath downloaded size then
          let* _ :=
            update (fun w =>
                      set_files
                        (write_file filepath (downloaded + size) (files w)) w) in
          write_chunks filepath rest (downloaded + size)
        else raise IOError
      else write_chunks filepath rest downloaded
  end.

(** [int(response.headers.get('content-length', 0))]. *)
Definition total_size_of (response : Response) : result Z :=
  match content_length response with
  | Some header =>
      match int_of_str header with
      | Some n => Return n
      | None => Raise ValueError
      end
  | None => Return 0
  end.

(** [_download_file], called without a progress callback as every caller
    in [cli_handler.py] does. *)
Definition _download_file (url : string) (filepath : Path) : M unit :=
  try_except
    (let* response := session_get env (Some url) [] in
     let* total_size := lift (total_size_of response) in
     if has_nul filepath then raise ValueError
     else if disk_ok env filepath then
       let* _ := update (fun w => set_files (write_file filepath 0 (files w)) w) in
       let* _ := write_chunks filepath (chunks response) 0 in
       match stream_end response with
       | StreamDone => ret tt
       | StreamBroken => raise RequestException
       | StreamInterrupted => raise KeyboardInterrupt
       end
     else raise IOError)
    (fun e => exn_eqb RequestException e || exn_eqb IOError e)
    (fun e =>
       match e with
       | RequestException => raise DownloadError
       | _ => raise FileError
       end).

Definition download (video_url : option string)
  (preferred_quality : option string) : M Path :=
  try_except
    (let* video_info := get_video_info env video_url in
     let* selected := lift (_select_quality video_info preferred_quality) in
     let quality := fst selected in
     let download_url := snd selected in
     let filename :=
       helpers.create_video_filename (title video_info) quality "mp4" in
     let* dir := read download_dir in
     let filepath := joinpath dir filename in
     let* _ := _download_file download_url filepath in
     ret filepath)
    is_Exception
    (fun _ => raise DownloadError).

End DownloaderService.

End downloader.

(** ** [src/core/search.py]: [SearchService] *)

Module search.
Import pystr.

Record SearchResult : Type := mkSearchResult {
  title : string;
  url : option string;
  thumbnail : option string;
  duration : option string;
  author : option string;
  views : option string;
  premium : bool
}.

(** The two fallback chains of [_parse_search_results]. *)
Definition title_element (element : Element) : option Tag :=
  tag_or (a_link_title element)
    (tag_or (span_title element) (text_container_h3 element)).

Definition url_element (element : Element) : option Tag :=
  tag_or (a_link_title element)
    (tag_or (a_thumbnail element) (a_link element)).

(** [if url and not url.startswith('http'): url = base_url + url]. *)
Definition full_url (url0 : option string) : option string :=
  match url0 with
  | Some u =>
      if truthy url0 && negb (startswith u "http")
      then Some (config.base_url ++ u) else url0
  | None => None
  end.

(** The body of the loop of [_parse_search_results] for one container:
    the record appended to [results], if any. *)
Definition parse_element (element : Element) : result (option SearchResult) :=
  match title_element element, url_element element with
  | Some title_el, Some url_el =>
      let title_ := strip (text title_el) in
      let url_ := full_url (tag_get url_el "href") in
      let premium_ :=
        match premium_icon element with
        | Some _ => true
        | None => false
        end in
      let thumbnail_ :=
        match img element with
        | Some i => str_or (tag_get i "src") (tag_get i "data-src")
        | None => None
        end in
      let duration_ := option_map (fun t => strip (text t)) (el_duration element) in
      let author_ := option_map (fun t => strip (text t)) (el_user_name element) in
      let views_ := option_map (fun t => strip (text t)) (el_views element) in
      Return (Some (mkSearchResult title_ url_ thumbnail_ duration_ author_
                      views_ premium_))
  | _, _ => Return None
  end.

(** [for element in video_elements: try: ... except Exception: log]. *)
Fixpoint parse_elements (elements : list Element) (results : list SearchResult)
  : result (list SearchResult) :=
  match elements with
  | [] => Return results
  | element :: rest =>
      match parse_element element with
      | Return (Some r) => parse_elements rest (results ++ [r])
      | Return None => parse_elements rest results
      | Raise e =>
          if is_Exception e then parse_elements rest results else Raise e
      end
  end.

Definition _parse_search_results (soup : ListingView)
  : result (list SearchResult) :=
  match login_premium_requied soup with
  | Some _ => Raise AuthenticationError
  | None => parse_elements (video_elements soup) []
  end.

Section SearchService.

Variable env : Env.

Definition search_in_folder (folder_id : string) (page : Z)
  : M (list SearchResult) :=
  try_except
    (let folder_url := config.base_url ++ "/folder/" ++ folder_id in
     let params := if 1 <? page then [("page", PInt page)] else [] in
     let* response := send env (GET folder_url params) in
     lift (_parse_search_results (listing_view response)))
    (exn_eqb RequestException)
    (fun _ => raise SearchError).

End SearchService.

End search.

(** ** [src/cli/cli_handler.py]: [CLIHandler] *)

Module cli_handler.
Import search.

Record CrawlCursor : Type := mkCursor {
  current_page : Z;
  total_downloaded : Z;
  total_skipped : Z
}.

(** How one turn of the [while True] loop of [_download_folder] ends. *)
Inductive Flow : Type :=
| Continue (c : CrawlCursor)
| Break (c : CrawlCursor).

(** Truth value of the optional page number [end_page]. *)
Definition bounded (end_page : option Z) : bool :=
  match end_page with
  | Some e => negb (e =? 0)
  | None => false
  end.

Definition exceeds (page : Z) (end_page : option Z) : bool :=
  match end_page with
  | Some e => e <? page
  | None => false
  end.

Section CLIHandler.

Variable env : Env.

(** The loop [for i, result in enumerate(results, 1)] of
    [_download_all_from_results].  The progress bar and the pauses of
    [time.sleep] change nothing that is modelled. *)
Fixpoint download_each (quality : option string) (results : list SearchResult)
  (downloaded skipped : Z) : M (Z * Z) :=
  match results with
  | [] => ret (downloaded, skipped)
  | result :: rest =>
      let* counts :=
        try_except
          (let* filepath := downloader.download env (url result) quality in
           ret (downloaded + 1, skipped))
          (fun e => exn_eqb VideoInfoError e || exn_eqb DownloadError e
                    || exn_eqb FileError e)
          (fun _ => ret (downloaded, skipped + 1)) in
      download_each quality rest (fst counts) (snd counts)
  end.

Definition _download_all_from_results (results : list SearchResult)
  (quality : option string) (download_dir_ : option Path) : M (Z * Z) :=
  match results with
  | [] => ret (0, 0)
  | _ :: _ =>
      let* original_download_dir :=
        match download_dir_ with
        | Some d =>
            let* original := read download_dir in
            let* _ := update (set_download_dir d) in
            ret (Some original)
        | None => ret None
        end in
      try_finally
        (download_each quality results 0 0)
        (match download_dir_, original_download_dir with
         | Some _, Some original => update (set_download_dir original)
         | _, _ => ret tt
         end)
  end.

(** One turn of the [while True] loop of [_download_folder]. *)
Definition crawl_turn (folder_id : string) (quality : option string)
  (end_page : option Z) (premium_only : bool) (c : CrawlCursor) : M Flow :=
  let* fetched :=
    try_except
      (let* results := search_in_folder env folder_id (current_page c) in
       ret (Some results))
      (exn_eqb SearchError)
      (fun _ => ret None) in
  match fetched with
  | None => ret (Break c)
  | Some [] => ret (Break c)
  | Some results =>
      let filtered_results := filter premium results in
      let skipped_count :=
        Z.of_nat (length results) - Z.of_nat (length filtered_results) in
      let results' := if premium_only then filtered_results else results in
      let total_skipped' :=
        if premium_only && (0 <? skipped_count)
        then total_skipped c + skipped_count else total_skipped c in
      let* counts := _download_all_from_results results' quality None in
      let c' :=
        mkCursor (current_page c + 1)
          (total_downloaded c + fst counts)
          (total_skipped' + snd counts) in
      if bounded end_page && exceeds (current_page c') end_page
      then ret (Break c')
      else ret (Continue c')
  end.

(** The [while True] loop, run for at most [fuel] turns; [None] when the
    turns run out before the loop breaks. *)
Fixpoint crawl_loop (fuel : nat) (folder_id : string) (quality : option string)
  (end_page : option Z) (premium_only : bool) (c : CrawlCursor)
  : M (option CrawlCursor) :=
  match fuel with
  | O => ret None
  | S fuel' =>
      let* flow := crawl_turn folder_id quality end_page premium_only c in
      match flow with
      | Break c' => ret (Some c')
      | Continue c' =>
          crawl_loop fuel' folder_id quality end_page premium_only c'
      end
  end.

(** [_download_folder]; the result is the pair of totals it prints. *)
Definition _download_folder (fuel : nat) (folder_id : string)
  (quality : option string) (start_page : Z) (end_page : option Z)
  (premium_only : bool) : M (option (Z * Z)) :=
  let* final :=
    crawl_loop fuel folder_id quality end_page premium_only
      (mkCursor start_page 0 0) in
  ret (option_map (fun c => (total_downloaded c, total_skipped c)) final).

End CLIHandler.

End cli_handler.

(** ** Vocabulary of the statements *)

(** The rank of a quality label. *)
Definition rank : string -> Z := helpers.parse_quality_from_string.

(** Descending order of the second component. *)
Definition ge_key (a b : string * Z) : Prop := snd b <= snd a.


(** [m] leaves the observation [f] of the world as it found it, whether
    it returns or raises. *)
Definition frames {A B : Type} (m : M A) (f : World -> B) : Prop :=
  forall w, f (fst (m w)) = f w.

(** An observation that network and disk traffic does not change. *)
Definition io_independent {B : Type} (f : World -> B) : Prop :=
  (forall h w, f (set_history h w) = f w)
  /\ (forall fs w, f (set_files fs w) = f w).

(** The request that [login] posts. *)
Definition login_request (username_ password csrf_token : string) : Request :=
  POST config.login_url
    [("username", PStr username_); ("password", PStr password);
     ("_token", PStr csrf_token); ("remember", PStr "1")].

(** The test [login] makes on the body of the response. *)
Definition login_succeeded (username_ body : string) : bool :=
  pystr.contains "premium" (pystr.lower body)
  && pystr.contains (pystr.lower username_) (pystr.lower body).

(** A container for which both fallback chains find an element. *)
Definition resolved (element : Element) : bool :=
  match search.title_element element, search.url_element element with
  | Some _, Some _ => true
  | _, _ => false
  end.

(** [r] is the record that [_parse_search_results] builds from [element]:
    its title is the stripped text of the title element, its URL the full
    URL of the link of the URL element. *)
Definition record_of (element : Element) (r : search.SearchResult) : Prop :=
  exists title_el url_el,
    search.title_element element = Some title_el
    /\ search.url_element element = Some url_el
    /\ search.title r = pystr.strip (text title_el)
    /\ search.url r = search.full_url (tag_get url_el "href").

Definition cursor_of (flow : cli_handler.Flow) : cli_handler.CrawlCursor :=
  match flow with
  | cli_handler.Continue c => c
  | cli_handler.Break c => c
  end.

Definition is_break (flow : cli_handler.Flow) : bool :=
  match flow with
  | cli_handler.Continue _ => false
  | cli_handler.Break _ => true
  end.


(** The address of a folder, as [search_in_folder] builds it. *)
Definition folder_url (folder_id : string) : string :=
  config.base_url ++ "/folder/" ++ folder_id.

(** A site and a user that never interrupt a call. *)
Definition never_interrupts (env : Env) : Prop :=
  forall h req,
    match server env h req with
    | Responded r => stream_end r <> StreamInterrupted
    | Failed => True
    | Interrupted => False
    end.

(** The exception of an outcome, if it is one. *)
Definition raised {A : Type} (r : result A) : option exn :=
  match r with
  | Return _ => None
  | Raise e => Some e
  end.

(** [m] never raises [KeyboardInterrupt]. *)
Definition calm {A : Type} (m : M A) : Prop :=
  forall w, raised (snd (m w)) <> Some KeyboardInterrupt.

(** ** Fixtures *)

Module fixtures.

Definition no_login_view : LoginView := mkLoginView None None None None [].

Definition no_video_view : VideoView :=
  mkVideoView None None None None None None None [] None.

Definition no_listing_view : ListingView := mkListingView None [].

Definition blank : Response :=
  mkResponse EmptyString no_login_view no_video_view no_listing_view [] None []
    StreamDone.

Definition with_text (s : string) : Response :=
  mkResponse s no_login_view no_video_view no_listing_view [] None [] StreamDone.

Definition with_login_view (v : LoginView) : Response :=
  mkResponse EmptyString v no_video_view no_listing_view [] None [] StreamDone.

Definition with_video_view (v : VideoView) : Response :=
  mkResponse EmptyString no_login_view v no_listing_view [] None [] StreamDone.

Definition with_listing_view (v : ListingView) : Response :=
  mkResponse EmptyString no_login_view no_video_view v [] None [] StreamDone.

(** A streamed body without a content-length header, and one with it. *)
Definition with_stream (sizes : list Z) (e : StreamEnd) : Response :=
  mkResponse EmptyString no_login_view no_video_view no_listing_view []
    None sizes e.

Definition with_stream_of (header : string) (sizes : list Z) (e : StreamEnd)
  : Response :=
  mkResponse EmptyString no_login_view no_video_view no_listing_view []
    (Some header) sizes e.

(** The world of a fresh [CLIHandler], and the same after a login. *)
Definition fresh : World :=
  mkWorld [] false None (mkPath "pobrane_filmy") [].

Definition signed_in : World :=
  mkWorld [] true (Some "jan") (mkPath "pobrane_filmy") [].

(** A video page with a title and one 720p link in [player_data]. *)
Definition video_page (name file_url : string) : Response :=
  with_video_view
    (mkVideoView None (Some (mkTag name [])) None None None None None
       [[("720p", Some file_url)]] None).

(** A video page behind the premium notice. *)
Definition walled_page : Response :=
  with_video_view
    (mkVideoView (Some (mkTag "Zaloguj sie, aby obejrzec ten film" []))
       None None None None None None [] None).

(** A listing container with a title link. *)
Definition item (name href : string) : Element :=
  mkElement (Some (mkTag name [("href", href)])) None None None None None
    None None None None.

(** A listing container with a title in [span.title] and no link at all. *)
Definition title_only : Element :=
  mkElement None (Some (mkTag "Film" [])) None None None None
    None None None None.

(** The pattern [cda\.pl/video/(\w+)] on the addresses of the fixtures. *)
Definition video_pattern_ (u : string) : option string :=
  if String.prefix "https://www.cda.pl/video/" u
  then Some (String.substring 25 (String.length u - 25) u) else None.

(** A site that is down: every request fails. *)
Definition site_down : Env :=
  mkEnv (fun _ _ => Failed) (fun _ => true) (fun _ => true)
    (fun _ _ _ => true) video_pattern_ (fun _ => None).

(** A site whose login page has only the meta tag of the token and which
    greets the user on a premium page after the login. *)
Definition login_site : Env :=
  mkEnv
    (fun _ req =>
       match req with
       | GET _ _ =>
           Responded
             (with_login_view
                (mkLoginView None None None
                   (Some (mkTag EmptyString [("name", "csrf-token"); ("content", "abc123")]))
                   []))
       | POST _ _ => Responded (with_text "Witaj JAN, konto Premium aktywne")
       end)
    (fun _ => true) (fun _ => true) (fun _ _ _ => true) video_pattern_
    (fun _ => None).

(** The folder of two pages: three records on page 1, none on page 2;
    every video resolves and every file arrives. *)
Definition folder_site : Env :=
  mkEnv
    (fun _ req =>
       match req with
       | GET u [] =>
           if String.eqb u (folder_url "abc") then
             Responded
               (with_listing_view
                  (mkListingView None
                     [item "Film 1" "/video/1"; item "Film 2" "/video/2";
                      item "Film 3" "/video/3"]))
           else
             match video_pattern_ u with
             | Some n =>
                 Responded
                   (video_page ("Film " ++ n) ("https://cdn.cda.pl/" ++ n ++ ".mp4"))
             | None =>
                 if String.prefix "https://cdn.cda.pl/" u
                 then Responded (with_stream [1000; 24] StreamDone)
                 else Failed
             end
       | GET u (_ :: _) =>
           if String.eqb u (folder_url "abc")
           then Responded (with_listing_view no_listing_view) else Failed
       | POST _ _ => Failed
       end)
    (fun _ => true) (fun _ => true) (fun _ _ _ => true) video_pattern_
    (fun _ => None).

(** A site on which video 1 is behind the premium notice, video 2 is
    available, and the user interrupts the request for video 3. *)
Definition walled_site : Env :=
  mkEnv
    (fun _ req =>
       match req with
       | GET u [] =>
           if String.eqb u "https://www.cda.pl/video/1" then
             Responded walled_page
           else if String.eqb u "https://www.cda.pl/video/2" then
             Responded (video_page "Film 2" "https://cdn.cda.pl/2.mp4")
           else if String.eqb u "https://www.cda.pl/video/3" then
             Interrupted
           else if String.prefix "https://cdn.cda.pl/" u then
             Responded (with_stream [1000] StreamDone)
           else Failed
       | _ => Failed
       end)
    (fun _ => true) (fun _ => true) (fun _ _ _ => true) video_pattern_
    (fun _ => None).

Definition record (name u : string) : search.SearchResult :=
  search.mkSearchResult name (Some u) None None None None false.

Definition video1 : search.SearchResult :=
  record "Film 1" "https://www.cda.pl/video/1".

Definition video2 : search.SearchResult :=
  record "Film 2" "https://www.cda.pl/video/2".

Definition video3 : search.SearchResult :=
  record "Film 3" "https://www.cda.pl/video/3".

(** A folder whose listing is behind the login wall. *)
Definition walled_folder_site : Env :=
  mkEnv
    (fun _ req =>
       match req with
       | GET u _ =>
           if String.eqb u (folder_url "abc") then
             Responded
               (with_listing_view
                  (mkListingView (Some (mkTag "Zaloguj sie" []))
                     [item "Film 1" "/video/1"]))
           else Failed
       | POST _ _ => Failed
       end)
    (fun _ => true) (fun _ => true) (fun _ _ _ => true) video_pattern_
    (fun _ => None).


(** A file server with a good length header, and a disk that takes no
    more than 1000 bytes for a file. *)
Definition small_disk_site : Env :=
  mkEnv
    (fun _ _ => Responded (with_stream_of " 1_124 " [600; 0; 424; 100] StreamDone))
    (fun _ => true) (fun _ => true)
    (fun _ downloaded size => downloaded + size <=? 1000) video_pattern_
    (fun _ => None).

(** A video page without player data whose download button links to
    [href]. *)
Definition button_page (href : string) : VideoView :=
  mkVideoView None (Some (mkTag "Film" [])) None None None None None []
    (Some (mkTag "Pobierz" [("href", href)])).

(** A site that answers the button of the video page, wherever the
    request goes, with a download page of one anchor. *)
Definition button_site : Env :=
  mkEnv
    (fun _ req =>
       match req with
       | GET u _ =>
           if String.eqb u "https://www.cda.pl/video/1"
           then Responded (with_video_view (button_page "/download/1"))
           else
             Responded
               (mkResponse EmptyString no_login_view no_video_view
                  no_listing_view
                  [mkTag " 720p " [("href", "https://cdn.cda.pl/1.mp4")]]
                  None [] StreamDone)
       | POST _ _ => Failed
       end)
    (fun _ => true) (fun _ => true) (fun _ _ _ => true) video_pattern_
    (fun _ => None).

End fixtures.

(** ** More of the code: the other entry points *)

(** [isinstance(e, CDADownloaderException)]: the six classes of
    [src/utils/exceptions.py]. *)
Definition is_CDADownloaderException (e : exn) : bool :=
  match e with
  | AuthenticationError | TokenError | VideoInfoError
  | DownloadError | SearchError | FileError => true
  | _ => false
  end.

(** [SearchService.search] of [src/core/search.py]. *)
Module search_query.
Import search.

Section SearchService.

Variable env : Env.

Definition search (query : string) (premium_only : bool) (page : Z)
  : M (list SearchResult) :=
  try_except
    (let search_url := config.base_url ++ "/video/szukaj" in
     let params := [("q", PStr query); ("page", PInt page)] in
     let params :=
       if premium_only then (params ++ [("s", PStr "premium")])%list
       else params in
     let* response := send env (GET search_url params) in
     lift (_parse_search_results (listing_view response)))
    (exn_eqb RequestException)
    (fun _ => raise SearchError).

End SearchService.

End search_query.

(** The commands of [src/cli/cli_handler.py] that take no input from the
    keyboard. *)
Module cli_commands.
Import cli_handler.

Section CLIHandler.

Variable env : Env.

(** [_handle_download]; [args.url], [args.jakosc], [args.katalog]. *)
Definition _handle_download (url : string) (jakosc : option string)
  (katalog : option Path) : M unit :=
  let* _ :=
    match katalog with
    | Some d => update (set_download_dir d)
    | None => ret tt
    end in
  let* filepath := downloader.download env (Some url) jakosc in
  ret tt.

(** [_handle_download_folder]; the loop of [_download_folder] runs for at
    most [fuel] turns. *)
Definition _handle_download_folder (fuel : nat) (id : string)
  (jakosc : option string) (katalog : option Path)
  (strona_start : Z) (strona_koniec : option Z) (tylko_filmy_premium : bool)
  : M (option (Z * Z)) :=
  let* _ :=
    match katalog with
    | Some d => update (set_download_dir d)
    | None => ret tt
    end in
  _download_folder env fuel id jakosc strona_start strona_koniec
    tylko_filmy_premium.

End CLIHandler.

End cli_commands.

(** [src/szybkie_pobieranie.py] *)
Module szybkie_pobieranie.

Section Script.

Variable env : Env.


End Script.

End szybkie_pobieranie.

(** [src/runner.py]: the batch and the crawl of the interactive runner *)
Module runner.
Import search cli_handler.

Section InteractiveRunner.

Variable env : Env.

(** The loop of [download_all_from_results]. *)
Fixpoint download_each (quality : option string) (results : list SearchResult)
  (downloaded skipped : Z) : M (Z * Z) :=
  match results with
  | [] => ret (downloaded, skipped)
  | result :: rest =>
      let* counts :=
        try_except
          (let* filepath := downloader.download env (url result) quality in
           ret (downloaded + 1, skipped))
          is_CDADownloaderException
          (fun _ => ret (downloaded, skipped + 1)) in
      download_each quality rest (fst counts) (snd counts)
  end.

(** [download_all_from_results]; the result is the pair of counts it
    prints, [None] when it returns at once on an empty list. *)
Definition download_all_from_results (results : list SearchResult)
  (quality : option string) (download_dir_ : option Path)
  : M (option (Z * Z)) :=
  match results with
  | [] => ret None
  | _ :: _ =>
      let* original_download_dir :=
        match download_dir_ with
        | Some d =>
            let* original := read download_dir in
            let* _ := update (set_download_dir d) in
            ret (Some original)
        | None => ret None
        end in
      let* counts :=
        try_finally
          (download_each quality results 0 0)
          (match original_download_dir with
           | Some original => update (set_download_dir original)
           | None => ret tt
           end) in
      ret (Some counts)
  end.

(** One turn of the [while True] loop of [download_folder_impl]. *)
Definition crawl_turn (folder_id : string) (quality : option string)
  (end_page : option Z) (premium_only : bool) (c : CrawlCursor) : M Flow :=
  let* fetched :=
    try_except
      (let* results := search_in_folder env folder_id (current_page c) in
       ret (Some results))
      is_CDADownloaderException
      (fun _ => ret None) in
  match fetched with
  | None => ret (Break c)
  | Some [] => ret (Break c)
  | Some results =>
      let filtered_results := filter premium results in
      let skipped_count :=
        Z.of_nat (length results) - Z.of_nat (length filtered_results) in
      let results' := if premium_only then filtered_results else results in
      let total_skipped' :=
        if premium_only && (0 <? skipped_count)
        then total_skipped c + skipped_count else total_skipped c in
      let* counts :=
        download_each quality results' (total_downloaded c) total_skipped' in
      let c' := mkCursor (current_page c + 1) (fst counts) (snd counts) in
      if bounded end_page && exceeds (current_page c') end_page
      then ret (Break c')
      else ret (Continue c')
  end.

Fixpoint crawl_loop (fuel : nat) (folder_id : string) (quality : option string)
  (end_page : option Z) (premium_only : bool) (c : CrawlCursor)
  : M (option CrawlCursor) :=
  match fuel with
  | O => ret None
  | S fuel' =>
      let* flow := crawl_turn folder_id quality end_page premium_only c in
      match flow with
      | Break c' => ret (Some c')
      | Continue c' =>
          crawl_loop fuel' folder_id quality end_page premium_only c'
      end
  end.

(** [download_folder_impl]; the result is the pair of totals it prints. *)
Definition download_folder_impl (fuel : nat) (folder_id : string)
  (quality : option string) (start_page : Z) (end_page : option Z)
  (premium_only : bool) : M (option (Z * Z)) :=
  let* final :=
    crawl_loop fuel folder_id quality end_page premium_only
      (mkCursor start_page 0 0) in
  ret (option_map (fun c => (total_downloaded c, total_skipped c)) final).

End InteractiveRunner.

End runner.

(** ** Vocabulary of the further statements *)

(** The characters of a string. *)
Definition chars (s : string) : list ascii := list_ascii_of_string s.

(** A label without a decimal digit. *)
Definition digit_free (s : string) : Prop := pystr.search_digits s = None.

(** The two fields of the authentication state agree: a user name is
    recorded exactly when the state is authenticated. *)
Definition auth_consistent (w : World) : Prop :=
  (logged_in w = true -> username w <> None)
  /\ (logged_in w = false -> username w = None).

(** An outcome that raises nothing but the exceptions [allowed]. *)
Definition raises_only {A : Type} (allowed : list exn) (r : result A) : Prop :=
  match r with
  | Return _ => True
  | Raise e => In e allowed
  end.

(** A call that raises nothing but the exceptions [allowed], whatever the
    state it starts in. *)
Definition raises_in {A : Type} (allowed : list exn) (m : M A) : Prop :=
  forall w, raises_only allowed (snd (m w)).

(** The size of the file at [p], if there is one. *)
Fixpoint file_size (p : Path) (fs : list (Path * Z)) : option Z :=
  match fs with
  | [] => None
  | (q, n) :: r => if path_eqb q p then Some n else file_size p r
  end.


(** Whether the disk takes every chunk of [cs] for the file [p] that holds
    [downloaded] bytes, and the bytes the file holds when the loop over the
    chunks is left, at the end or at the first write that is refused. *)
Fixpoint all_written (env : Env) (p : Path) (cs : list Z) (downloaded : Z)
  : bool :=
  match cs with
  | [] => true
  | size :: rest =>
      if 0 <? size
      then write_ok env p downloaded size
           && all_written env p rest (downloaded + size)
      else all_written env p rest downloaded
  end.

Fixpoint written (env : Env) (p : Path) (cs : list Z) (downloaded : Z) : Z :=
  match cs with
  | [] => downloaded
  | size :: rest =>
      if 0 <? size
      then if write_ok env p downloaded size
           then written env p rest (downloaded + size)
           else downloaded
      else written env p rest downloaded
  end.

(** How a call [m] that fetches one listing page with the request [req]
    can fail. *)
Definition fails_as_listing {A : Type} (env : Env) (m : M A) (req : Request)
  : Prop :=
  raises_in [SearchError; AuthenticationError; KeyboardInterrupt] m
  /\ (forall w, history (fst (m w)) = (history w ++ [req])%list)
  /\ (forall w, server env (history w) req = Failed ->
                snd (m w) = Raise SearchError)
  /\ (forall w r t,
         server env (history w) req = Responded r ->
         login_premium_requied (listing_view r) = Some t ->
         snd (m w) = Raise AuthenticationError).

(** A URL as a listing record holds it after [_parse_search_results]:
    absent, empty, or starting with http. *)
Definition absolute_or_empty (u : option string) : Prop :=
  match u with
  | None => True
  | Some s => s = EmptyString \/ pystr.startswith s "http" = true
  end.

(* ===================================================================== *)
(** * Part II: properties *)
(* ===================================================================== *)

(** ** Strings *)

Section StringFacts.
Import pystr.

Lemma prefix_app (p s : string) :
  String.prefix p s = true <-> exists b, s = p ++ b.
Proof.
  revert s; induction p as [|c p IH]; intros s.
  - destruct s; simpl; split; eauto.
  - destruct s as [|d s]; simpl.
    + split; [discriminate | intros [b Hb]; discriminate].
    + destruct (Ascii.ascii_dec c d) as [->|Hcd].
      * rewrite IH. split; intros [b Hb]; exists b.
        -- now rewrite Hb.
        -- now inversion Hb.
      * split; [discriminate | intros [b Hb]; inversion Hb; congruence].
Qed.

(** [contains] is Python's [in]: some occurrence of [p] inside [s]. *)
Lemma contains_spec (p s : string) :
  contains p s = true <-> exists a b, s = a ++ p ++ b.
Proof.
  induction s as [|c s IH]; cbn [contains].
  - rewrite orb_false_r, prefix_app. split.
    + intros [b Hb]. now exists EmptyString, b.
    + intros [a [b Hab]]. destruct a; [now exists b | discriminate].
  - rewrite orb_true_iff, prefix_app, IH. split.
    + intros [[b Hb] | [a [b Hab]]].
      * now exists EmptyString, b.
      * exists (String c a), b. simpl. now rewrite Hab.
    + intros [a [b Hab]]. destruct a as [|d a]; simpl in Hab.
      * left. now exists b.
      * right. inversion Hab. now exists a, b.
Qed.

Lemma append_empty_r (s : string) : s ++ EmptyString = s.
Proof. induction s; simpl; congruence. Qed.


Lemma search_digits_skip (pre s : string) :
  search_digits pre = None ->
  search_digits (pre ++ s) = search_digits s.
Proof.
  induction pre as [|c pre IH]; simpl; [reflexivity|].
  destruct (is_digit c); [discriminate | exact IH].
Qed.

Lemma digit_run_app (ds post : string) :
  all_digits ds = true ->
  digit_run post = EmptyString ->
  digit_run (ds ++ post) = ds.
Proof.
  intros Hds Hpost. induction ds as [|c ds IH]; simpl in *; [exact Hpost|].
  apply andb_true_iff in Hds as [Hc Hds]. rewrite Hc, IH; auto.
Qed.

(** The leftmost run of digits is what the pattern captures, whatever
    stands before and after it. *)
Lemma search_digits_run (pre ds post : string) :
  search_digits pre = None ->
  ds <> EmptyString ->
  all_digits ds = true ->
  digit_run post = EmptyString ->
  search_digits (pre ++ ds ++ post) = Some ds.
Proof.
  intros Hpre Hne Hds Hpost. rewrite search_digits_skip by exact Hpre.
  destruct ds as [|c ds]; [congruence|].
  pose proof (digit_run_app _ _ Hds Hpost) as Hrun.
  simpl in Hds. apply andb_true_iff in Hds as [Hc Hds].
  change (String c ds ++ post) with (String c (ds ++ post)) in *.
  cbn [search_digits]. rewrite Hc. now rewrite Hrun.
Qed.

Lemma int_acc_snoc (ds : string) (c : ascii) (acc : Z) :
  int_acc (ds ++ String c EmptyString) acc
  = 10 * int_acc ds acc + digit_val c.
Proof.
  revert acc; induction ds as [|d ds IH]; intros acc; simpl; [reflexivity|].
  apply IH.
Qed.

(** [int] reads a decimal numeral: appending a digit multiplies by ten. *)
Lemma int_snoc (ds : string) (c : ascii) :
  int (ds ++ String c EmptyString) = 10 * int ds + digit_val c.
Proof. apply int_acc_snoc. Qed.

End StringFacts.

(** ** Quality ranks *)

Section Rank.
Import pystr helpers.

(** A label with a run of digits has the number written by its leftmost
    run as its rank, whatever surrounds the run. *)
Lemma parse_quality_digit_run (pre ds post : string) :
  search_digits pre = None ->
  ds <> EmptyString ->
  all_digits ds = true ->
  digit_run post = EmptyString ->
  parse_quality_from_string (pre ++ ds ++ post) = int ds.
Proof.
  intros Hpre Hne Hds Hpost. unfold parse_quality_from_string.
  now rewrite (search_digits_run pre ds post Hpre Hne Hds Hpost).
Qed.

Lemma parse_quality_1080p : parse_quality_from_string "1080p" = 1080.
Proof. reflexivity. Qed.

Lemma parse_quality_mystery : parse_quality_from_string "mystery" = 0.
Proof. reflexivity. Qed.

(** C3, at the input where the code leaves the claim: the table is
    scanned in the order hd, fhd, ..., and the key hd is found inside the
    lowered label fhd first, so that the label FHD gets the rank 720 of HD
    and not the 1080 the table holds for it (and that 1080p has). *)
Theorem parse_quality_FHD_is_720 :
  parse_quality_from_string "FHD" = 720
  /\ parse_quality_from_string "1080p" = 1080
  /\ first_key_in quality_map (lower "FHD") = Some 720
  /\ dict.get "fhd" quality_map = Some 1080.
Proof. repeat split. Qed.

End Rank.

(** ** The descending sort and the best quality *)

Section Sorting.
Import helpers.

Lemma insert_desc_perm (x : string * Z) (l : list (string * Z)) :
  Permutation (x :: l) (insert_desc x l).
Proof.
  induction l as [|y r IH]; simpl; [apply Permutation_refl|].
  destruct (snd y <=? snd x); [apply Permutation_refl|].
  eapply perm_trans; [apply perm_swap | apply perm_skip, IH].
Qed.

Lemma sorted_desc_perm (l : list (string * Z)) :
  Permutation l (sorted_desc l).
Proof.
  induction l as [|x l IH]; simpl; [constructor|].
  eapply perm_trans; [apply perm_skip, IH | apply insert_desc_perm].
Qed.

Lemma insert_desc_sorted (x : string * Z) (l : list (string * Z)) :
  Sorted ge_key l -> Sorted ge_key (insert_desc x l).
Proof.
  induction l as [|y r IH]; intros Hs; simpl.
  - repeat constructor.
  - destruct (snd y <=? snd x) eqn:E.
    + constructor; [exact Hs|]. constructor. unfold ge_key. lia.
    + inversion Hs as [|? ? Hr Hhd]; subst. constructor; [apply IH, Hr|].
      destruct r as [|z r]; simpl.
      * constructor. unfold ge_key. lia.
      * destruct (snd z <=? snd x); constructor.
        -- unfold ge_key. lia.
        -- now inversion Hhd.
Qed.

(** The result is in descending order of rank... *)
Lemma sorted_desc_sorted (l : list (string * Z)) : Sorted ge_key (sorted_desc l).
Proof.
  induction l as [|x l IH]; simpl; [constructor | now apply insert_desc_sorted].
Qed.

Lemma insert_desc_filter (k : Z) (x : string * Z) (l : list (string * Z)) :
  filter (fun e => snd e =? k) (insert_desc x l)
  = filter (fun e => snd e =? k) (x :: l).
Proof.
  induction l as [|y r IH]; [reflexivity|].
  cbn [insert_desc]. destruct (snd y <=? snd x) eqn:E; [reflexivity|].
  cbn [filter] in *. rewrite IH.
  destruct (snd y =? k) eqn:Ey, (snd x =? k) eqn:Ex; try reflexivity. lia.
Qed.

(** ... and stable: the elements of one rank keep their order.  With the
    two lemmas above this determines the result, so [sorted_desc] is what
    [sorted(..., reverse=True)] returns. *)
Lemma sorted_desc_stable (k : Z) (l : list (string * Z)) :
  filter (fun e => snd e =? k) (sorted_desc l)
  = filter (fun e => snd e =? k) l.
Proof.
  induction l as [|x l IH]; [reflexivity|].
  change (sorted_desc (x :: l)) with (insert_desc x (sorted_desc l)).
  rewrite insert_desc_filter. cbn [filter]. now rewrite IH.
Qed.

(** The head of the sorted list is the first element of maximal key. *)
Lemma sorted_desc_head (x : string * Z) (l : list (string * Z)) :
  exists pre m post rest,
    x :: l = (pre ++ m :: post)%list
    /\ sorted_desc (x :: l) = m :: rest
    /\ Forall (fun e => snd e < snd m) pre
    /\ Forall (fun e => snd e <= snd m) post.
Proof.
  revert x; induction l as [|y l IH]; intros x.
  - exists [], x, [], []. repeat split; constructor.
  - destruct (IH y) as (pre & m & post & rest & Hsplit & Hsort & Hpre & Hpost).
    change (sorted_desc (x :: y :: l))
      with (insert_desc x (sorted_desc (y :: l))).
    rewrite Hsort. cbn [insert_desc]. destruct (snd m <=? snd x) eqn:E.
    + exists [], x, (y :: l), (m :: rest). repeat split; [constructor|].
      rewrite Hsplit. apply Forall_app. split.
      * eapply Forall_impl; [|exact Hpre]. simpl; intros; lia.
      * constructor; [lia|]. eapply Forall_impl; [|exact Hpost].
        simpl; intros; lia.
    + exists (x :: pre), m, post, (insert_desc x rest). repeat split.
      * simpl. now rewrite Hsplit.
      * constructor; [lia | exact Hpre].
      * exact Hpost.
Qed.

End Sorting.

Section BestQuality.
Import helpers video_info.

Lemma dict_get_skip {V : Type} (k : string) (v : V) (pre post : list (string * V)) :
  Forall (fun e => fst e <> k) pre ->
  dict.get k (pre ++ (k, v) :: post)%list = Some v.
Proof.
  induction pre as [|[k' v'] pre IH]; intros H; simpl.
  - now rewrite String.eqb_refl.
  - inversion H as [|? ? Hk Hrest]; subst. simpl in Hk.
    destruct (String.eqb_spec k' k); [congruence | now apply IH].
Qed.

Lemma best_of_links (e : string * string) (links : list (string * string)) :
  exists pre q u post,
    e :: links = (pre ++ (q, u) :: post)%list
    /\ (exists rest, sort_qualities (dict.keys (e :: links)) = q :: rest)
    /\ Forall (fun x => rank (fst x) < rank q) pre
    /\ Forall (fun x => rank (fst x) <= rank q) post.
Proof.
  set (f := fun q : string => (q, parse_quality_from_string q)).
  set (g := fun x : string * string => f (fst x)).
  destruct (sorted_desc_head (g e) (map g links))
    as (pre' & m & post' & rest & Hsplit & Hsort & Hpre & Hpost).
  change (g e :: map g links) with (map g (e :: links)) in Hsplit, Hsort.
  apply map_eq_app in Hsplit as (pre & tl & Hl & Hp & Ht).
  apply map_eq_cons in Ht as ([q u] & post & Htl & Hm & Hpo). subst.
  exists pre, q, u, post. repeat split.
  - exact Hl.
  - exists (map fst rest). unfold sort_qualities, dict.keys.
    rewrite map_map.
    change (map (fun x : string * string =>
                   (fst x, parse_quality_from_string (fst x))) (e :: links))
      with (map g (e :: links)).
    rewrite Hsort. reflexivity.
  - rewrite Forall_map in Hpre. exact Hpre.
  - rewrite Forall_map in Hpost. exact Hpost.
Qed.

(** C4: on the empty map [get_best_quality] raises [VideoInfoError]; on a
    non-empty map it returns an entry (label, url) of the map whose rank
    is the maximum over the map, and among the entries of maximal rank the
    first in the iteration order of the map: every entry before it has a
    strictly smaller rank, every entry after it a rank at most equal. *)
Theorem get_best_quality_first_max (vi : VideoInfo) :
  match download_links vi with
  | [] => get_best_quality vi = Raise VideoInfoError
  | _ :: _ =>
      exists pre q u post,
        download_links vi = (pre ++ (q, u) :: post)%list
        /\ get_best_quality vi = Return (q, u)
        /\ Forall (fun x => rank (fst x) < rank q) pre
        /\ Forall (fun x => rank (fst x) <= rank q) post
  end.
Proof.
  unfold get_best_quality. destruct (download_links vi) as [|e links] eqn:El.
  - reflexivity.
  - destruct (best_of_links e links)
      as (pre & q & u & post & Hsplit & [rest Hsort] & Hpre & Hpost).
    exists pre, q, u, post. repeat split; try assumption.
    rewrite Hsort. unfold item. rewrite Hsplit, dict_get_skip; [reflexivity|].
    eapply Forall_impl; [|exact Hpre]. intros x Hx Heq. simpl in Hx.
    rewrite Heq in Hx. lia.
Qed.

End BestQuality.

(** ** Selecting a quality *)

Section SelectQuality.
Import pystr helpers video_info downloader.




(** Without a preferred quality, or with the empty string, the choice is
    the best quality. *)
Lemma select_quality_not_given (vi : VideoInfo) :
  _select_quality vi None = get_best_quality vi
  /\ _select_quality vi (Some EmptyString) = get_best_quality vi.
Proof. split; reflexivity. Qed.



End SelectQuality.

(** ** Frame rules of the monad *)

Section Frames.

Context {B : Type} (f : World -> B).

Lemma frames_ret {A : Type} (a : A) : frames (ret a) f.
Proof. intros w. reflexivity. Qed.

Lemma frames_raise {A : Type} (e : exn) : frames (@raise A e) f.
Proof. intros w. reflexivity. Qed.

Lemma frames_lift {A : Type} (r : result A) : frames (lift r) f.
Proof. intros w. reflexivity. Qed.

Lemma frames_read {A : Type} (g : World -> A) : frames (read g) f.
Proof. intros w. reflexivity. Qed.

Lemma frames_update (g : World -> World) :
  (forall w, f (g w) = f w) -> frames (update g) f.
Proof. intros H w. apply H. Qed.

Lemma frames_bind {A C : Type} (m : M A) (k : A -> M C) :
  frames m f -> (forall a, frames (k a) f) -> frames (bind m k) f.
Proof.
  intros Hm Hk w. unfold bind. specialize (Hm w).
  destruct (m w) as [w' [a|e]]; simpl in *; [|exact Hm].
  now rewrite (Hk a w').
Qed.

Lemma frames_try_except {A : Type} (m : M A) (handled : exn -> bool)
  (h : exn -> M A) :
  frames m f -> (forall e, frames (h e) f) -> frames (try_except m handled h) f.
Proof.
  intros Hm Hh w. unfold try_except. specialize (Hm w).
  destruct (m w) as [w' [a|e]]; simpl in *; [exact Hm|].
  destruct (handled e); [|exact Hm]. now rewrite (Hh e w').
Qed.

Lemma frames_try_finally {A : Type} (m : M A) (fin : M unit) :
  frames m f -> frames fin f -> frames (try_finally m fin) f.
Proof.
  intros Hm Hf w. unfold try_finally. specialize (Hm w).
  destruct (m w) as [w' r]. specialize (Hf w').
  destruct (fin w') as [w'' [[]|e]]; simpl in *; congruence.
Qed.

Hypothesis f_io : io_independent f.

Lemma frames_send (env : Env) (req : Request) : frames (send env req) f.
Proof.
  intros w. unfold send.
  destruct (server env (history w) req); simpl; apply (proj1 f_io).
Qed.

Lemma frames_session_get (env : Env) (url : option string)
  (params : list (string * Param)) : frames (session_get env url params) f.
Proof.
  destruct url as [u|]; simpl; [|apply frames_raise].
  destruct (sendable env u); [apply frames_send | apply frames_raise].
Qed.

End Frames.

Create HintDb frames.

#[local] Hint Resolve frames_ret frames_raise frames_lift frames_read
  frames_send frames_session_get : frames.

Lemma io_independent_logged_in : io_independent logged_in.
Proof. split; reflexivity. Qed.

Lemma io_independent_username : io_independent username.
Proof. split; reflexivity. Qed.

Lemma io_independent_download_dir : io_independent download_dir.
Proof. split; reflexivity. Qed.

#[local] Hint Resolve io_independent_logged_in io_independent_username
  io_independent_download_dir : frames.

(** ** Authentication *)

Section Auth.
Import pystr auth.

Variable env : Env.

Lemma get_csrf_token_frames {B : Type} (f : World -> B) :
  io_independent f -> frames (get_csrf_token env) f.
Proof.
  intros Hf. unfold get_csrf_token.
  apply frames_try_except; [|auto with frames].
  apply frames_bind; [auto with frames|]. intros r.
  destruct (token_value_of _); [auto with frames|].
  destruct (token_in_scripts _); auto with frames.
Qed.

(** C6: from the anonymous state, once the token is found and the login
    request is answered, [login] returns without raising; it returns
    [True] exactly when the lowered body contains both premium and the
    lowered user name, and then the state is authenticated with the user
    name recorded; otherwise it returns [False] and the state is still
    anonymous, with no identity. *)
Theorem login_from_anonymous (username_ password : string) (w w1 : World)
  (csrf_token : string) (response : Response) :
  logged_in w = false ->
  username w = None ->
  get_csrf_token env w = (w1, Return csrf_token) ->
  server env (history w1) (login_request username_ password csrf_token)
    = Responded response ->
  exists w2,
    login env username_ password w
      = (w2, Return (login_succeeded username_ (response_text response)))
    /\ logged_in w2 = login_succeeded username_ (response_text response)
    /\ username w2
       = (if login_succeeded username_ (response_text response)
          then Some username_ else None).
Proof.
  intros Hl Hu Htok Hresp.
  pose proof (get_csrf_token_frames logged_in io_independent_logged_in w) as Fl.
  pose proof (get_csrf_token_frames username io_independent_username w) as Fu.
  rewrite Htok in Fl, Fu. simpl in Fl, Fu.
  unfold login, bind, read, try_except. rewrite Hl. simpl.
  rewrite Htok. unfold send. fold (login_request username_ password csrf_token).
  rewrite Hresp. fold (login_succeeded username_ (response_text response)).
  destruct (login_succeeded username_ (response_text response)); simpl.
  - eexists; repeat split.
  - eexists; repeat split; simpl; congruence.
Qed.

(** C9: when the state is authenticated and the logout request fails with
    a transport error, [logout] returns [False]; [logged_in] stays true
    and the recorded user name is the one before the call. *)
Theorem logout_transport_failure (w : World) :
  logged_in w = true ->
  server env (history w) (GET (config.base_url ++ "/logout") []) = Failed ->
  exists w',
    logout env w = (w', Return false)
    /\ logged_in w' = true
    /\ username w' = username w.
Proof.
  intros Hl Hfail. unfold logout, bind, read, try_except, send.
  rewrite Hl. cbn [negb]. rewrite Hfail. cbn [exn_eqb].
  eexists; repeat split. exact Hl.
Qed.

(** C10: in the authenticated state [login] returns [True] at once for
    any user name and password: no request is sent and nothing of the
    state changes, the recorded user name included. *)
Theorem login_when_authenticated (username_ password : string) (w : World) :
  logged_in w = true ->
  login env username_ password w = (w, Return true).
Proof.
  intros Hl. unfold login, bind, read. now rewrite Hl.
Qed.

End Auth.

(** ** Downloading one video *)

Section Download.
Import pystr video_info downloader.

Variable env : Env.

Lemma extract_download_links_frames {B : Type} (f : World -> B)
  (soup : VideoView) :
  io_independent f -> frames (_extract_download_links env soup) f.
Proof.
  intros Hf. unfold _extract_download_links.
  destruct (fold_left _ _ _); [|auto with frames].
  destruct (download_btn soup); [|auto with frames].
  destruct (truthy _); [|auto with frames].
  apply frames_try_except; [|auto with frames].
  apply frames_bind; auto with frames.
Qed.

Lemma get_video_info_frames {B : Type} (f : World -> B)
  (video_url : option string) :
  io_independent f -> frames (get_video_info env video_url) f.
Proof.
  intros Hf. unfold get_video_info.
  apply frames_try_except; [|auto with frames].
  apply frames_bind; [auto with frames|]. intros response.
  match goal with |- frames (if ?b then _ else _) _ => destruct b end;
    [auto with frames|].
  apply frames_bind; [auto with frames|]. intros vid.
  apply frames_bind; [auto with frames|]. intros vws.
  apply frames_bind; [now apply extract_download_links_frames|]. intros links.
  destruct links; auto with frames.
Qed.

Lemma write_chunks_frames {B : Type} (f : World -> B) (filepath : Path)
  (cs : list Z) :
  io_independent f ->
  forall downloaded, frames (write_chunks env filepath cs downloaded) f.
Proof.
  intros Hf. induction cs as [|size rest IH]; intros downloaded; simpl;
    [auto with frames|].
  destruct (0 <? size); [|apply IH].
  destruct (write_ok env filepath downloaded size); [|auto with frames].
  apply frames_bind; [apply frames_update; intros; apply (proj2 Hf)|].
  intros _. apply IH.
Qed.

Lemma download_file_frames {B : Type} (f : World -> B)
  (url : string) (filepath : Path) :
  io_independent f -> frames (_download_file env url filepath) f.
Proof.
  intros Hf. unfold _download_file.
  apply frames_try_except; [|intros []; auto with frames].
  apply frames_bind; [auto with frames|]. intros response.
  apply frames_bind; [auto with frames|]. intros total_size.
  destruct (has_nul filepath); [auto with frames|].
  destruct (disk_ok env filepath); [|auto with frames].
  apply frames_bind; [apply frames_update; intros; apply (proj2 Hf)|].
  intros _. apply frames_bind.
  - now apply write_chunks_frames.
  - intros _. destruct (stream_end response); auto with frames.
Qed.

(** [download] sends requests and writes files, and touches nothing else. *)
Lemma download_frames {B : Type} (f : World -> B)
  (video_url preferred_quality : option string) :
  io_independent f -> frames (download env video_url preferred_quality) f.
Proof.
  intros Hf. unfold download.
  apply frames_try_except; [|auto with frames].
  apply frames_bind; [now apply get_video_info_frames|]. intros vi.
  apply frames_bind; [auto with frames|]. intros sel.
  apply frames_bind; [auto with frames|]. intros dir.
  apply frames_bind; [now apply download_file_frames|]. auto with frames.
Qed.

(** Whatever goes wrong inside, [download] raises [DownloadError]; only
    an interrupt by the user passes through its [except Exception]. *)
Lemma download_raises (video_url preferred_quality : option string)
  (w : World) (e : exn) :
  snd (download env video_url preferred_quality w) = Raise e ->
  e = DownloadError \/ e = KeyboardInterrupt.
Proof.
  unfold download, try_except.
  match goal with |- context [match ?m w with _ => _ end] =>
    destruct (m w) as [w' [a|e0]] end; simpl; [discriminate|].
  destruct e0; simpl; intros H; inversion H; auto.
Qed.

(** An authentication failure of [get_video_info] leaves [download] as a
    [DownloadError]. *)
Lemma download_wraps_authentication_error
  (video_url preferred_quality : option string) (w w1 : World) :
  get_video_info env video_url w = (w1, Raise AuthenticationError) ->
  download env video_url preferred_quality w = (w1, Raise DownloadError).
Proof.
  intros H. unfold download, try_except, bind. now rewrite H.
Qed.

(** A video page with the premium notice asking to log in makes
    [get_video_info] raise [AuthenticationError]. *)
Lemma get_video_info_login_wall (u : string) (w : World) (r : Response)
  (t : Tag) :
  sendable env u = true ->
  server env (history w) (GET u []) = Responded r ->
  premium_info (video_view r) = Some t ->
  contains "zaloguj" (lower (text t)) = true ->
  get_video_info env (Some u) w
  = (set_history (history w ++ [GET u []]) w, Raise AuthenticationError).
Proof.
  intros Hu Hs Hp Hc.
  unfold get_video_info, try_except, bind, session_get. rewrite Hu.
  unfold send. rewrite Hs, Hp, Hc. reflexivity.
Qed.

End Download.

(** ** The batch download *)

Section Batch.
Import search cli_handler.

Variable env : Env.

Lemma download_each_frames {B : Type} (f : World -> B)
  (quality : option string) (results : list SearchResult) :
  io_independent f ->
  forall downloaded skipped,
    frames (download_each env quality results downloaded skipped) f.
Proof.
  intros Hf. induction results as [|r rest IH]; intros d s; simpl.
  - auto with frames.
  - apply frames_bind; [|intros counts; apply IH].
    apply frames_try_except; [|auto with frames].
    apply frames_bind; [now apply download_frames | auto with frames].
Qed.

(** One record of the batch: downloaded, skipped, or an interrupt. *)
Lemma download_each_step (quality : option string) (r : SearchResult)
  (rest : list SearchResult) (d s : Z) (w : World) :
  download_each env quality (r :: rest) d s w
  = match downloader.download env (url r) quality w with
    | (w1, Return _) => download_each env quality rest (d + 1) s w1
    | (w1, Raise DownloadError) => download_each env quality rest d (s + 1) w1
    | (w1, Raise e) => (w1, Raise e)
    end.
Proof.
  cbn [download_each]. unfold bind at 1, try_except, bind at 1.
  pose proof (download_raises env (url r) quality w) as Hr.
  destruct (downloader.download env (url r) quality w) as [w1 [p|e]].
  - reflexivity.
  - destruct (Hr e eq_refl) as [-> | ->]; reflexivity.
Qed.

Lemma download_each_raises (quality : option string)
  (results : list SearchResult) :
  forall d s w e,
    snd (download_each env quality results d s w) = Raise e ->
    e = KeyboardInterrupt.
Proof.
  induction results as [|r rest IH]; intros d s w e.
  - discriminate.
  - rewrite download_each_step.
    pose proof (download_raises env (url r) quality w) as Hr.
    destruct (downloader.download env (url r) quality w) as [w1 [p|e0]].
    + apply IH.
    + destruct (Hr e0 eq_refl) as [-> | ->]; [apply IH|].
      simpl. congruence.
Qed.

(** Every record adds one to exactly one of the two counters. *)
Lemma download_each_counts (quality : option string)
  (results : list SearchResult) :
  forall d s w w' d' s',
    download_each env quality results d s w = (w', Return (d', s')) ->
    d' + s' = d + s + Z.of_nat (length results) /\ d <= d' /\ s <= s'.
Proof.
  induction results as [|r rest IH]; intros d s w w' d' s'.
  - simpl. unfold ret. intros H. inversion H; subst. lia.
  - rewrite download_each_step.
    pose proof (download_raises env (url r) quality w) as Hr.
    destruct (downloader.download env (url r) quality w) as [w1 [p|e0]].
    + intros H. apply IH in H. cbn [length]. lia.
    + destruct (Hr e0 eq_refl) as [-> | ->]; [|discriminate].
      intros H. apply IH in H. cbn [length]. lia.
Qed.

Lemma batch_unfold (r : SearchResult) (rest : list SearchResult)
  (quality : option string) (download_dir_ : option Path) (w : World) :
  _download_all_from_results env (r :: rest) quality download_dir_ w
  = match download_dir_ with
    | Some d =>
        let run := download_each env quality (r :: rest) 0 0
                     (set_download_dir d w) in
        (set_download_dir (download_dir w) (fst run), snd run)
    | None => download_each env quality (r :: rest) 0 0 w
    end.
Proof.
  unfold _download_all_from_results, bind, try_finally, read, update, ret.
  destruct download_dir_ as [d|].
  - destruct (download_each env quality (r :: rest) 0 0 (set_download_dir d w));
      reflexivity.
  - destruct (download_each env quality (r :: rest) 0 0 w); reflexivity.
Qed.

Lemma batch_raises (results : list SearchResult) (quality : option string)
  (download_dir_ : option Path) (w : World) (e : exn) :
  snd (_download_all_from_results env results quality download_dir_ w)
    = Raise e ->
  e = KeyboardInterrupt.
Proof.
  destruct results as [|r rest]; [discriminate|]. rewrite batch_unfold.
  destruct download_dir_; apply download_each_raises.
Qed.

Lemma batch_counts (results : list SearchResult) (quality : option string)
  (download_dir_ : option Path) (w w' : World) (d s : Z) :
  _download_all_from_results env results quality download_dir_ w
    = (w', Return (d, s)) ->
  d + s = Z.of_nat (length results) /\ 0 <= d /\ 0 <= s.
Proof.
  destruct results as [|r rest].
  - unfold _download_all_from_results, ret. intros H; inversion H. simpl; lia.
  - rewrite batch_unfold. destruct download_dir_ as [dd|].
    + cbv zeta.
      destruct (download_each env quality (r :: rest) 0 0 (set_download_dir dd w))
        as [w1 res] eqn:E.
      cbn [fst snd]. intros H. inversion H; subst.
      apply download_each_counts in E. lia.
    + intros H. apply download_each_counts in H. lia.
Qed.

(** C8: whatever the records, the preferred quality and the override, the
    download directory after [_download_all_from_results] is the one
    before the call, whether the batch returns its counts or an exception
    leaves it. *)
Theorem batch_restores_download_dir (results : list SearchResult)
  (quality : option string) (download_dir_ : option Path) (w : World) :
  download_dir
    (fst (_download_all_from_results env results quality download_dir_ w))
  = download_dir w.
Proof.
  destruct results as [|r rest]; [reflexivity|]. rewrite batch_unfold.
  destruct download_dir_ as [d|].
  - reflexivity.
  - apply (download_each_frames download_dir quality (r :: rest)
             io_independent_download_dir 0 0 w).
Qed.

(** While the batch runs the override is in force: every download of the
    batch starts with the override as download directory. *)
Lemma batch_runs_under_override (r : SearchResult) (rest : list SearchResult)
  (quality : option string) (d : Path) (w : World) :
  exists w1,
    snd (_download_all_from_results env (r :: rest) quality (Some d) w)
    = snd (download_each env quality (r :: rest) 0 0 w1)
    /\ download_dir w1 = d.
Proof.
  exists (set_download_dir d w). rewrite batch_unfold. split; reflexivity.
Qed.

(** What the batch does with an authentication failure, in general: met
    while one record is resolved, it leaves [download] as [DownloadError],
    so the batch counts the record as skipped, like any other failure of
    one record, and goes on with the records that remain; no batch ever
    raises [AuthenticationError]. *)
Theorem batch_skips_authentication_failure (quality : option string)
  (r : SearchResult) (rest : list SearchResult) (d s : Z) (w w1 : World) :
  video_info.get_video_info env (url r) w = (w1, Raise AuthenticationError) ->
  downloader.download env (url r) quality w = (w1, Raise DownloadError)
  /\ download_each env quality (r :: rest) d s w
     = download_each env quality rest d (s + 1) w1
  /\ (forall results download_dir_ w0,
         snd (_download_all_from_results env results quality download_dir_ w0)
         <> Raise AuthenticationError).
Proof.
  intros H.
  pose proof (download_wraps_authentication_error env _ quality _ _ H) as Hd.
  repeat split.
  - exact Hd.
  - rewrite download_each_step, Hd. reflexivity.
  - intros results dd w0 Hr. apply batch_raises in Hr. discriminate.
Qed.

End Batch.

(** ** The listing parser *)

Section Listing.
Import pystr search.

Lemma parse_element_resolved (element : Element) :
  resolved element = true ->
  exists r, parse_element element = Return (Some r) /\ record_of element r.
Proof.
  unfold resolved, parse_element, record_of.
  destruct (title_element element) as [t|]; [|discriminate].
  destruct (url_element element) as [u|]; [|discriminate].
  intros _. eexists. split; [reflexivity|]. exists t, u. repeat split.
Qed.

Lemma parse_element_dropped (element : Element) :
  resolved element = false -> parse_element element = Return None.
Proof.
  unfold resolved, parse_element.
  destruct (title_element element), (url_element element);
    try discriminate; reflexivity.
Qed.

(** A container is kept exactly when both chains find an element. *)
Lemma resolved_iff (element : Element) :
  resolved element = true
  <-> title_element element <> None /\ url_element element <> None.
Proof.
  unfold resolved.
  destruct (title_element element), (url_element element); split;
    try discriminate; try (intros [? ?]; congruence); try reflexivity.
  intros _. split; discriminate.
Qed.

Lemma parse_elements_records (elements : list Element) :
  forall acc,
  exists rs,
    parse_elements elements acc = Return (acc ++ rs)%list
    /\ Forall2 record_of (filter resolved elements) rs.
Proof.
  induction elements as [|e rest IH]; intros acc.
  - exists []. simpl. rewrite app_nil_r. split; constructor.
  - cbn [parse_elements filter]. destruct (resolved e) eqn:E.
    + destruct (parse_element_resolved e E) as (r & Hr & Hrec). rewrite Hr.
      destruct (IH (acc ++ [r])%list) as (rs & Hrs & Hall).
      exists (r :: rs). rewrite Hrs, <- app_assoc. split; [reflexivity|].
      now constructor.
    + rewrite (parse_element_dropped e E). apply IH.
Qed.

(** C2, as the code has it: on a listing page without the login-wall
    marker [_parse_search_results] returns and does not raise; a candidate
    container yields a record exactly when both its title chain and its
    URL chain find an element, and is dropped when either finds none; the
    records come out in the order of the containers that are kept, each
    built from the elements the two chains found. *)
Theorem parse_listing_keeps_resolved (soup : ListingView) :
  login_premium_requied soup = None ->
  (exists results,
      _parse_search_results soup = Return results
      /\ Forall2 record_of (filter resolved (video_elements soup)) results)
  /\ (forall element,
         resolved element = true
         <-> title_element element <> None /\ url_element element <> None).
Proof.
  intros H. split; [|exact resolved_iff].
  unfold _parse_search_results. rewrite H.
  destruct (parse_elements_records (video_elements soup) []) as (rs & Hrs & Hall).
  now exists rs.
Qed.

Lemma parse_listing_keeps_resolved_witness :
  exists results,
    _parse_search_results
      (mkListingView None [fixtures.title_only; fixtures.item "A" "/video/9"])
    = Return results
    /\ Forall2 record_of
         (filter resolved [fixtures.title_only; fixtures.item "A" "/video/9"])
         results.
Proof.
  exact (proj1 (parse_listing_keeps_resolved
                  (mkListingView None
                     [fixtures.title_only; fixtures.item "A" "/video/9"])
                  eq_refl)).
Defined.

(** C2 as it is stated fails: the container of the fixture has a title
    that the chain resolves, through [span.title], and no link; the page
    has no login-wall marker; and no record comes out for it. *)
Lemma parse_listing_drops_title_only :
  login_premium_requied (mkListingView None [fixtures.title_only]) = None
  /\ title_element fixtures.title_only = Some (mkTag "Film" [])
  /\ url_element fixtures.title_only = None
  /\ _parse_search_results (mkListingView None [fixtures.title_only])
     = Return [].
Proof. repeat split. Qed.

(** A page with the marker raises [AuthenticationError] for the page. *)
Lemma parse_listing_login_wall (soup : ListingView) (t : Tag) :
  login_premium_requied soup = Some t ->
  _parse_search_results soup = Raise AuthenticationError.
Proof. intros H. unfold _parse_search_results. now rewrite H. Qed.

End Listing.

(** ** Runs on the fixtures: authentication and the batch *)

Section Runs.
Import fixtures auth search cli_handler.

Lemma login_from_anonymous_witness :
  exists w2,
    login login_site "jan" "pw" fresh = (w2, Return true)
    /\ logged_in w2 = true
    /\ username w2 = Some "jan".
Proof.
  exact (login_from_anonymous login_site "jan" "pw" fresh
           (set_history [GET config.login_url []] fresh) "abc123"
           (with_text "Witaj JAN, konto Premium aktywne")
           eq_refl eq_refl eq_refl eq_refl).
Defined.

(** The same site refuses a user whose name the page does not show. *)
Example login_refused :
  login login_site "ola" "pw" fresh
  = (set_history
       [GET config.login_url []; login_request "ola" "pw" "abc123"] fresh,
     Return false).
Proof. reflexivity. Qed.

Lemma logout_transport_failure_witness :
  exists w',
    logout site_down signed_in = (w', Return false)
    /\ logged_in w' = true
    /\ username w' = Some "jan".
Proof.
  exact (logout_transport_failure site_down signed_in eq_refl eq_refl).
Defined.

Lemma login_when_authenticated_witness :
  login site_down "ola" "other password" signed_in = (signed_in, Return true).
Proof.
  exact (login_when_authenticated site_down "ola" "other password" signed_in
           eq_refl).
Defined.

Lemma batch_skips_authentication_failure_witness :
  downloader.download walled_site (url video1) None fresh
  = (set_history [GET "https://www.cda.pl/video/1" []] fresh,
     Raise DownloadError)
  /\ download_each walled_site None [video1; video2] 0 0 fresh
     = download_each walled_site None [video2] 0 (0 + 1)
         (set_history [GET "https://www.cda.pl/video/1" []] fresh)
  /\ (forall results download_dir_ w0,
         snd (_download_all_from_results walled_site results None
                download_dir_ w0)
         <> Raise AuthenticationError).
Proof.
  exact (batch_skips_authentication_failure walled_site None video1 [video2]
           0 0 fresh
           (set_history [GET "https://www.cda.pl/video/1" []] fresh) eq_refl).
Defined.

(** C1 fails on the code.  The page of the first record is behind the
    premium notice, so that resolving it raises [AuthenticationError],
    which the handler of the batch leaves out of the exceptions it
    catches; but [download] has turned it into [DownloadError] before it
    gets there, so the batch does not raise, counts the record as skipped
    and downloads the second record. *)
Lemma batch_survives_authentication_failure :
  snd (video_info.get_video_info walled_site (url video1) fresh)
    = Raise AuthenticationError
  /\ snd (_download_all_from_results walled_site [video1; video2] None None
            fresh)
     = Return (1, 1)
  /\ snd (_download_all_from_results walled_site [video1; video2] None None
            fresh)
     <> Raise AuthenticationError.
Proof. repeat split. discriminate. Qed.

(** An exception does leave the batch when the user interrupts it, and
    the override is undone on that exit as well: the file of the second
    record went to the override, the directory is the old one again. *)
Example batch_interrupted_restores_download_dir :
  let run :=
    _download_all_from_results walled_site [video1; video2; video3] None
      (Some (mkPath "tmp")) fresh in
  snd run = Raise KeyboardInterrupt
  /\ files (fst run) = [(mkPath "tmp/Film_2_720p.mp4", 1000)]
  /\ download_dir (fst run) = download_dir fresh.
Proof. repeat split. Qed.

End Runs.

(** ** Calls that no interrupt can leave *)

Section Calm.
Import pystr video_info downloader search cli_handler.

Lemma calm_ret {A : Type} (a : A) : calm (ret a).
Proof. intros w. discriminate. Qed.

Lemma calm_read {A : Type} (g : World -> A) : calm (read g).
Proof. intros w. discriminate. Qed.

Lemma calm_update (g : World -> World) : calm (update g).
Proof. intros w. discriminate. Qed.

Lemma calm_raise {A : Type} (e : exn) :
  e <> KeyboardInterrupt -> calm (@raise A e).
Proof. intros H w. simpl. congruence. Qed.

Lemma calm_lift {A : Type} (r : result A) :
  raised r <> Some KeyboardInterrupt -> calm (lift r).
Proof. intros H w. exact H. Qed.

Lemma calm_bind {A C : Type} (m : M A) (k : A -> M C) :
  calm m -> (forall a, calm (k a)) -> calm (bind m k).
Proof.
  intros Hm Hk w. unfold bind. specialize (Hm w).
  destruct (m w) as [w' [a|e]]; [apply Hk | exact Hm].
Qed.

Lemma calm_try_except {A : Type} (m : M A) (handled : exn -> bool)
  (h : exn -> M A) :
  calm m -> (forall e, calm (h e)) -> calm (try_except m handled h).
Proof.
  intros Hm Hh w. unfold try_except. specialize (Hm w).
  destruct (m w) as [w' [a|e]]; [discriminate|].
  destruct (handled e); [apply Hh | exact Hm].
Qed.

Ltac pure_calm :=
  repeat match goal with
         | |- context [match ?x with _ => _ end] =>
             lazymatch x with
             | context [match _ with _ => _ end] => fail
             | _ => destruct x
             end
         end;
  simpl; discriminate.

Lemma select_quality_calm (vi : VideoInfo) (preferred : option string) :
  raised (_select_quality vi preferred) <> Some KeyboardInterrupt.
Proof. unfold _select_quality, get_best_quality, item. pure_calm. Qed.

Variable env : Env.
Hypothesis quiet : never_interrupts env.

Lemma calm_send (req : Request) : calm (send env req).
Proof.
  intros w. unfold send. specialize (quiet (history w) req).
  destruct (server env (history w) req); simpl; [discriminate..|contradiction].
Qed.

Lemma calm_session_get (url : option string) (params : list (string * Param)) :
  calm (session_get env url params).
Proof.
  destruct url as [u|]; simpl; [|apply calm_raise; discriminate].
  destruct (sendable env u); [apply calm_send | apply calm_raise; discriminate].
Qed.

Lemma extract_download_links_calm (soup : VideoView) :
  calm (_extract_download_links env soup).
Proof.
  unfold _extract_download_links.
  destruct (fold_left _ _ _); [|apply calm_ret].
  destruct (download_btn soup); [|apply calm_ret].
  destruct (truthy _); [|apply calm_ret].
  apply calm_try_except; [|intros; apply calm_ret].
  apply calm_bind; [apply calm_session_get | intros; apply calm_ret].
Qed.

Lemma get_video_info_calm (video_url : option string) :
  calm (get_video_info env video_url).
Proof.
  unfold get_video_info.
  apply calm_try_except; [|intros; apply calm_raise; discriminate].
  apply calm_bind; [apply calm_session_get|]. intros response.
  match goal with |- calm (if ?b then _ else _) => destruct b end;
    [apply calm_raise; discriminate|].
  apply calm_bind.
  { apply calm_lift. unfold extract_video_id_from_url. pure_calm. }
  intros vid. apply calm_bind.
  { apply calm_lift. unfold int_of_views. pure_calm. }
  intros vws. apply calm_bind; [apply extract_download_links_calm|].
  intros links. destruct links; [apply calm_raise; discriminate | apply calm_ret].
Qed.

Lemma write_chunks_calm (filepath : Path) (cs : list Z) :
  forall downloaded, calm (write_chunks env filepath cs downloaded).
Proof.
  induction cs as [|size rest IH]; intros downloaded; simpl; [apply calm_ret|].
  destruct (0 <? size); [|apply IH].
  destruct (write_ok env filepath downloaded size);
    [|apply calm_raise; discriminate].
  apply calm_bind; [apply calm_update | intros; apply IH].
Qed.

Lemma download_file_calm (url : string) (filepath : Path) :
  calm (_download_file env url filepath).
Proof.
  intros w. unfold _download_file, try_except, bind at 1, session_get.
  destruct (sendable env url); [|simpl; discriminate].
  unfold send. specialize (quiet (history w) (GET url [])).
  destruct (server env (history w) (GET url [])) as [r| |];
    [|simpl; discriminate|contradiction].
  unfold bind at 1, lift, total_size_of.
  destruct (content_length r) as [header|];
    [destruct (int_of_str header) as [n|]; [|simpl; discriminate]|].
  all: match goal with
       | |- context [has_nul ?p] =>
           destruct (has_nul p); [simpl; discriminate|]
       end.
  all: match goal with
       | |- context [disk_ok ?e ?p] =>
           destruct (disk_ok e p); [|simpl; discriminate]
       end.
  all: unfold bind at 1, update; unfold bind at 1.
  all: match goal with
       | |- context [write_chunks ?e ?p ?cs 0 ?w0] =>
           let Hw := fresh "Hw" in
           pose proof (write_chunks_calm p cs 0 w0) as Hw;
           destruct (write_chunks e p cs 0 w0) as [w2 [n'|e']];
           [|simpl in Hw; destruct e'; simpl; try discriminate; now elim Hw]
       end.
  all: match goal with
       | |- context [stream_end ?x] =>
           destruct (stream_end x); simpl; try discriminate; congruence
       end.
Qed.

Lemma download_calm (video_url preferred_quality : option string) :
  calm (download env video_url preferred_quality).
Proof.
  unfold download.
  apply calm_try_except; [|intros; apply calm_raise; discriminate].
  apply calm_bind; [apply get_video_info_calm|]. intros vi.
  apply calm_bind; [apply calm_lift, select_quality_calm|]. intros sel.
  apply calm_bind; [apply calm_read|]. intros dir.
  apply calm_bind; [apply download_file_calm | intros; apply calm_ret].
Qed.



End Calm.

(** ** The folder crawl *)

Section Crawl.
Import search cli_handler.

Variable env : Env.

Lemma crawl_turn_fetch_raises (folder_id : string) (quality : option string)
  (end_page : option Z) (premium_only : bool) (c : CrawlCursor)
  (w w1 : World) (e : exn) :
  search_in_folder env folder_id (current_page c) w = (w1, Raise e) ->
  crawl_turn env folder_id quality end_page premium_only c w
  = if exn_eqb SearchError e then (w1, Return (Break c)) else (w1, Raise e).
Proof.
  intros Hs. unfold crawl_turn, bind at 1, try_except, bind at 1.
  rewrite Hs. destruct (exn_eqb SearchError e); reflexivity.
Qed.

Lemma crawl_turn_empty_page (folder_id : string) (quality : option string)
  (end_page : option Z) (premium_only : bool) (c : CrawlCursor)
  (w w1 : World) :
  search_in_folder env folder_id (current_page c) w = (w1, Return []) ->
  crawl_turn env folder_id quality end_page premium_only c w
  = (w1, Return (Break c)).
Proof.
  intros Hs. unfold crawl_turn, bind at 1, try_except, bind at 1.
  now rewrite Hs.
Qed.

(** A page with records: what is dispatched, and the cursor after it. *)
Lemma crawl_turn_dispatch (folder_id : string) (quality : option string)
  (end_page : option Z) (premium_only : bool) (c : CrawlCursor)
  (w w1 : World) (x : SearchResult) (xs : list SearchResult) :
  search_in_folder env folder_id (current_page c) w = (w1, Return (x :: xs)) ->
  let dispatched :=
    if premium_only then filter premium (x :: xs) else x :: xs in
  match _download_all_from_results env dispatched quality None w1 with
  | (w2, Return (d, s)) =>
      exists c',
        current_page c' = current_page c + 1
        /\ total_downloaded c' = total_downloaded c + d
        /\ total_skipped c'
           = total_skipped c
             + (Z.of_nat (length (x :: xs)) - Z.of_nat (length dispatched)) + s
        /\ crawl_turn env folder_id quality end_page premium_only c w
           = (w2, Return (if bounded end_page
                             && exceeds (current_page c + 1) end_page
                          then Break c' else Continue c'))
  | (w2, Raise e) =>
      crawl_turn env folder_id quality end_page premium_only c w
      = (w2, Raise e)
  end.
Proof.
  intros Hs dispatched.
  pose proof (filter_length_le premium (x :: xs)) as Hlen.
  set (skipped_count :=
         Z.of_nat (length (x :: xs))
         - Z.of_nat (length (filter premium (x :: xs)))).
  assert (Hstep :
    crawl_turn env folder_id quality end_page premium_only c w
    = match _download_all_from_results env dispatched quality None w1 with
      | (w2, Return counts) =>
          let c' :=
            mkCursor (current_page c + 1) (total_downloaded c + fst counts)
              ((if premium_only && (0 <? skipped_count)
                then total_skipped c + skipped_count else total_skipped c)
               + snd counts) in
          (w2, Return (if bounded end_page
                          && exceeds (current_page c + 1) end_page
                       then Break c' else Continue c'))
      | (w2, Raise e) => (w2, Raise e)
      end).
  { unfold crawl_turn, bind at 1, try_except, bind at 1. rewrite Hs.
    unfold ret at 1. cbv beta iota. unfold bind at 1. fold dispatched.
    destruct (_download_all_from_results env dispatched quality None w1)
      as [w2 [counts|e]]; [|reflexivity].
    cbn [current_page]. fold skipped_count. cbv zeta.
    destruct (bounded end_page && exceeds (current_page c + 1) end_page);
      reflexivity. }
  rewrite Hstep.
  destruct (_download_all_from_results env dispatched quality None w1)
    as [w2 [[d s]|e]]; [|reflexivity].
  cbv zeta. cbn [fst snd].
  exists (mkCursor (current_page c + 1) (total_downloaded c + d)
            ((if premium_only && (0 <? skipped_count)
              then total_skipped c + skipped_count else total_skipped c) + s)).
  split; [reflexivity|]. split; [reflexivity|]. split; [|reflexivity].
  cbn [total_skipped]. subst dispatched skipped_count.
  destruct premium_only; cbn [andb]; [destruct (0 <? _) eqn:Epos|]; lia.
Qed.

(** One turn of the loop, read off the outcome of the page fetch.  The
    turn breaks the loop exactly when the fetch raised [SearchError], the
    page had no record, or the page number after the increment exceeds a
    non-zero [end_page]; a page with records adds the number of its
    records to the sum of the two totals, and a turn that fetched no
    record leaves the cursor alone. *)
Lemma crawl_turn_spec (folder_id : string) (quality : option string)
  (end_page : option Z) (premium_only : bool) (c : CrawlCursor)
  (w w' : World) (flow : Flow) :
  crawl_turn env folder_id quality end_page premium_only c w
    = (w', Return flow) ->
  let fetched := snd (search_in_folder env folder_id (current_page c) w) in
  (is_break flow = true
   <-> fetched = Raise SearchError
       \/ fetched = Return []
       \/ (bounded end_page = true
           /\ exceeds (current_page c + 1) end_page = true))
  /\ match fetched with
     | Return (x :: xs) =>
         current_page (cursor_of flow) = current_page c + 1
         /\ total_downloaded (cursor_of flow) + total_skipped (cursor_of flow)
            = total_downloaded c + total_skipped c
              + Z.of_nat (length (x :: xs))
         /\ total_downloaded c <= total_downloaded (cursor_of flow)
         /\ total_skipped c <= total_skipped (cursor_of flow)
     | _ => cursor_of flow = c
     end.
Proof.
  destruct (search_in_folder env folder_id (current_page c) w)
    as [w1 [[|x xs]|e]] eqn:Hs; cbn [snd].
  - rewrite (crawl_turn_empty_page _ _ _ _ _ _ _ Hs).
    intros H; inversion H; subst. split; [|reflexivity]. split; auto.
  - pose proof (crawl_turn_dispatch _ quality end_page premium_only _ _ _ _ _ Hs)
      as Hd. cbv zeta in Hd.
    pose proof (filter_length_le premium (x :: xs)) as Hlen.
    destruct (_download_all_from_results env _ quality None w1)
      as [w2 [[d s]|e]] eqn:Eb.
    + destruct Hd as (c' & Hp & Htd & Hts & Ht). rewrite Ht.
      apply batch_counts in Eb.
      assert (Hsum : total_downloaded c' + total_skipped c'
                     = total_downloaded c + total_skipped c
                       + Z.of_nat (length (x :: xs))
                     /\ total_downloaded c <= total_downloaded c'
                     /\ total_skipped c <= total_skipped c').
      { rewrite Htd, Hts. destruct premium_only; lia. }
      destruct (bounded end_page && exceeds (current_page c + 1) end_page)
        eqn:Eend; intros H; inversion H; subst; cbn [is_break cursor_of].
      * split; [|tauto]. split; [intros _|reflexivity]. right; right.
        now apply andb_true_iff in Eend.
      * split; [|tauto]. split; [discriminate|].
        intros [Hf|[Hf|[Hb He]]]; try discriminate.
        rewrite Hb, He in Eend. discriminate.
    + rewrite Hd. discriminate.
  - rewrite (crawl_turn_fetch_raises _ _ _ _ _ _ _ _ Hs).
    destruct e; cbn [exn_eqb]; try discriminate.
    intros H; inversion H; subst. split; [|reflexivity]. split; auto.
Qed.






Hypothesis quiet : never_interrupts env.





End Crawl.

Section CrawlClaims.
Import fixtures search cli_handler.




(** A folder behind the login wall: the crawl is left by
    [AuthenticationError] at its first fetch and prints no totals, with an
    end page or without. *)
Example crawl_left_at_login_wall (fuel : nat) (end_page : option Z) :
  _download_folder walled_folder_site (S fuel) "abc" None 1 end_page false
    fresh
  = (set_history [GET (folder_url "abc") []] fresh, Raise AuthenticationError).
Proof. reflexivity. Qed.

(** The crawl of the fixture in full: the three videos of page 1 are
    downloaded, page 2 is fetched last, and the totals are 3 and 0. *)
Example crawl_fixture (fuel : nat) :
  _download_folder folder_site (S (S fuel)) "abc" None 1 None false fresh
  = (mkWorld
       [GET "https://www.cda.pl/folder/abc" [];
        GET "https://www.cda.pl/video/1" [];
        GET "https://cdn.cda.pl/1.mp4" [];
        GET "https://www.cda.pl/video/2" [];
        GET "https://cdn.cda.pl/2.mp4" [];
        GET "https://www.cda.pl/video/3" [];
        GET "https://cdn.cda.pl/3.mp4" [];
        GET "https://www.cda.pl/folder/abc" [("page", PInt 2)]]
       false None (mkPath "pobrane_filmy")
       [(mkPath "pobrane_filmy/Film_1_720p.mp4", 1024);
        (mkPath "pobrane_filmy/Film_2_720p.mp4", 1024);
        (mkPath "pobrane_filmy/Film_3_720p.mp4", 1024)],
     Return (Some (3, 0))).
Proof. reflexivity. Qed.

(** An end page of zero does not bound the crawl: after page 1 the loop
    goes on.  With end page 1 the crawl stops once page 1 is dispatched,
    before page 2 is fetched. *)
Example crawl_end_page_edge_cases :
  bounded (Some 0) = false
  /\ snd (_download_folder folder_site 1 "abc" None 1 (Some 0) false fresh)
     = Return None
  /\ snd (_download_folder folder_site 1 "abc" None 1 (Some 1) false fresh)
     = Return (Some (3, 0)).
Proof. repeat split. Qed.

End CrawlClaims.

(* ===================================================================== *)
(** * Part III: further properties of the code *)
(* ===================================================================== *)

(** ** File names *)

Section FileNames.
Import pystr helpers.

Lemma remove_forbidden_clean (s : string) :
  Forall (fun c => forbidden c = false) (chars (remove_forbidden s)).
Proof.
  induction s as [|c s IH]; simpl; [constructor|].
  destruct (forbidden c) eqn:E; [exact IH | now constructor].
Qed.

Lemma collapse_spaces_no_space (in_run : bool) (s : string) :
  Forall (fun c => is_space c = false) (chars (collapse_spaces in_run s)).
Proof.
  revert in_run; induction s as [|c s IH]; intros in_run; simpl; [constructor|].
  destruct (is_space c) eqn:E.
  - destruct in_run; [apply IH|]. constructor; [reflexivity | apply IH].
  - constructor; [exact E | apply IH].
Qed.

Lemma collapse_spaces_keeps_clean (in_run : bool) (s : string) :
  Forall (fun c => forbidden c = false) (chars s) ->
  Forall (fun c => forbidden c = false) (chars (collapse_spaces in_run s)).
Proof.
  revert in_run; induction s as [|c s IH]; intros in_run H; simpl; [constructor|].
  inversion H as [|? ? Hc Hs]; subst.
  destruct (is_space c).
  - destruct in_run; [now apply IH|]. constructor; [reflexivity | now apply IH].
  - constructor; [exact Hc | now apply IH].
Qed.

Lemma substring_prefix_forall (P : ascii -> Prop) (m : nat) (s : string) :
  Forall P (chars s) -> Forall P (chars (String.substring 0 m s)).
Proof.
  revert s; induction m as [|m IH]; intros s H.
  - destruct s; constructor.
  - destruct s as [|c s]; simpl; [constructor|].
    inversion H; subst. constructor; [assumption | now apply IH].
Qed.

Lemma substring_prefix_length (m : nat) (s : string) :
  (String.length (String.substring 0 m s) <= m)%nat.
Proof.
  revert s; induction m as [|m IH]; intros s.
  - destruct s; simpl; lia.
  - destruct s as [|c s]; simpl; [lia|]. specialize (IH s). lia.
Qed.

Lemma substring_short (m : nat) (s : string) :
  (String.length s <= m)%nat -> String.substring 0 m s = s.
Proof.
  revert s; induction m as [|m IH]; intros s H.
  - destruct s; [reflexivity | simpl in H; lia].
  - destruct s as [|c s]; simpl; [reflexivity|].
    rewrite IH; [reflexivity | simpl in H; lia].
Qed.

Lemma remove_forbidden_fixed (s : string) :
  Forall (fun c => forbidden c = false) (chars s) -> remove_forbidden s = s.
Proof.
  induction s as [|c s IH]; intros H; simpl; [reflexivity|].
  inversion H as [|? ? Hc Hs]; subst. rewrite Hc, IH; auto.
Qed.

Lemma collapse_spaces_fixed (in_run : bool) (s : string) :
  Forall (fun c => is_space c = false) (chars s) ->
  collapse_spaces in_run s = s.
Proof.
  revert in_run; induction s as [|c s IH]; intros in_run H; simpl; [reflexivity|].
  inversion H as [|? ? Hc Hs]; subst. rewrite Hc, IH; auto.
Qed.

Lemma sanitized_chars (title : string) :
  Forall (fun c => forbidden c = false /\ is_space c = false)
    (chars (sanitize_filename title)).
Proof.
  unfold sanitize_filename. apply substring_prefix_forall.
  pose proof (collapse_spaces_keeps_clean false _ (remove_forbidden_clean title))
    as Hf.
  pose proof (collapse_spaces_no_space false (remove_forbidden title)) as Hs.
  revert Hf Hs. generalize (chars (collapse_spaces false (remove_forbidden title))).
  induction l as [|c l IH]; intros Hf Hs; [constructor|].
  inversion Hf; inversion Hs; subst. constructor; [now split | now apply IH].
Qed.

(** A sanitized title holds none of the nine characters that are not
    allowed in a file name and no white space, and is at most 80
    characters long. *)
Theorem sanitize_filename_safe (title : string) :
  Forall (fun c => forbidden c = false /\ is_space c = false)
    (chars (sanitize_filename title))
  /\ (String.length (sanitize_filename title) <= 80)%nat.
Proof.
  split; [apply sanitized_chars|].
  unfold sanitize_filename. apply substring_prefix_length.
Qed.

(** Sanitizing twice is sanitizing once: a sanitized title is a fixed
    point of [sanitize_filename]. *)
Theorem sanitize_filename_idempotent (title : string) :
  sanitize_filename (sanitize_filename title) = sanitize_filename title.
Proof.
  pose proof (sanitized_chars title) as Hall.
  assert (Hlen : (String.length (sanitize_filename title) <= 80)%nat)
    by (unfold sanitize_filename; apply substring_prefix_length).
  unfold sanitize_filename at 1.
  rewrite remove_forbidden_fixed, collapse_spaces_fixed, substring_short; auto.
  - eapply Forall_impl; [|exact Hall]. now intros c [_ H].
  - eapply Forall_impl; [|exact Hall]. now intros c [H _].
Qed.

End FileNames.

(** ** More on ranks and on the sort *)

Section RankFacts.
Import pystr helpers.

Lemma all_digits_digit_run (s : string) : all_digits (digit_run s) = true.
Proof.
  induction s as [|c s IH]; simpl; [reflexivity|].
  destruct (is_digit c) eqn:E; simpl; [now rewrite E | reflexivity].
Qed.

Lemma search_digits_all_digits (s g : string) :
  search_digits s = Some g -> all_digits g = true.
Proof.
  induction s as [|c s IH]; simpl; [discriminate|].
  destruct (is_digit c) eqn:E; [|exact IH].
  intros H; inversion H; subst. simpl. rewrite E. simpl.
  apply all_digits_digit_run.
Qed.

Lemma digit_val_nonneg (c : ascii) : is_digit c = true -> 0 <= digit_val c <= 9.
Proof.
  unfold is_digit, digit_val. intros H. apply andb_true_iff in H as [H1 H2].
  apply Nat.leb_le in H1, H2. lia.
Qed.

Lemma int_acc_nonneg (s : string) :
  forall acc, all_digits s = true -> 0 <= acc -> 0 <= int_acc s acc.
Proof.
  induction s as [|c s IH]; intros acc H Hacc; cbn [int_acc]; [exact Hacc|].
  cbn [all_digits] in H. apply andb_true_iff in H as [Hc Hs].
  apply IH; [exact Hs|]. pose proof (digit_val_nonneg c Hc). lia.
Qed.

Lemma is_digit_lower_char (c : ascii) : is_digit (lower_char c) = is_digit c.
Proof.
  destruct c as [[] [] [] [] [] [] [] []]; reflexivity.
Qed.

Lemma digit_free_lower (s : string) :
  search_digits s = None -> search_digits (lower s) = None.
Proof.
  induction s as [|c s IH]; simpl; [reflexivity|].
  rewrite is_digit_lower_char. destruct (is_digit c); [discriminate | exact IH].
Qed.

Lemma append_assoc (a b c : string) : (a ++ b) ++ c = a ++ (b ++ c).
Proof. induction a as [|x a IH]; simpl; congruence. Qed.

(** An occurrence of a string is an occurrence of each of its tails. *)
Lemma contains_tail (c : ascii) (p s : string) :
  contains (String c p) s = true -> contains p s = true.
Proof.
  rewrite !contains_spec. intros (a & b & H).
  exists (a ++ String c EmptyString), b. rewrite H, append_assoc. reflexivity.
Qed.

Lemma search_digits_at (a r : string) (c : ascii) :
  is_digit c = true -> search_digits (a ++ String c r) <> None.
Proof.
  intros Hc. induction a as [|x a IH]; simpl.
  - rewrite Hc. discriminate.
  - destruct (is_digit x); [discriminate | exact IH].
Qed.

Lemma contains_digit (c : ascii) (p s : string) :
  is_digit c = true ->
  contains (String c p) s = true -> search_digits s <> None.
Proof.
  intros Hc H. apply contains_spec in H as (a & b & ->).
  now apply search_digits_at.
Qed.

(** The rank of a label is never negative: an unknown label, of rank 0,
    sorts lowest. *)
Theorem rank_nonnegative (label : string) : 0 <= rank label.
Proof.
  unfold rank, parse_quality_from_string.
  destruct (search_digits label) as [g|] eqn:E.
  - apply int_acc_nonneg; [eapply search_digits_all_digits; eauto | lia].
  - unfold quality_map, first_key_in.
    repeat match goal with
           | |- context [if ?b then _ else _] => destruct b
           end; lia.
Qed.

(** For a label without a digit the table is, in effect, three entries
    long: any label that holds hd in some case ranks 720, so fhd, qhd and
    uhd never get the 1080, 1440 and 2160 written for them, and the key
    4k, which has a digit, is never found in such a label. *)
Theorem rank_of_digit_free_label (label : string) :
  digit_free label ->
  rank label
  = if contains "hd" (lower label) then 720
    else if contains "sd" (lower label) then 480
    else if contains "ld" (lower label) then 360
    else 0.
Proof.
  intros Hfree. unfold rank, parse_quality_from_string.
  unfold digit_free in Hfree. rewrite Hfree.
  pose proof (digit_free_lower label Hfree) as Hlow.
  unfold quality_map, first_key_in.
  destruct (contains "hd" (lower label)) eqn:Ehd; [reflexivity|].
  destruct (contains "fhd" (lower label)) eqn:Efhd.
  { apply contains_tail in Efhd. congruence. }
  destruct (contains "qhd" (lower label)) eqn:Eqhd.
  { apply contains_tail in Eqhd. congruence. }
  destruct (contains "uhd" (lower label)) eqn:Euhd.
  { apply contains_tail in Euhd. congruence. }
  destruct (contains "4k" (lower label)) eqn:E4k.
  { exfalso. revert E4k. intros E4k.
    apply (contains_digit "4"%char "k" (lower label) eq_refl E4k Hlow). }
  destruct (contains "sd" (lower label)); [reflexivity|].
  destruct (contains "ld" (lower label)); reflexivity.
Qed.

Lemma rank_of_digit_free_label_witness :
  digit_free "Full UHD" /\ rank "Full UHD" = 720.
Proof.
  split; [reflexivity|].
  exact (rank_of_digit_free_label "Full UHD" eq_refl).
Defined.

Lemma parse_quality_digit_run_witness :
  parse_quality_from_string "Full-1080p HD" = 1080.
Proof.
  refine (parse_quality_digit_run "Full-" "1080" "p HD" eq_refl _ eq_refl eq_refl).
  discriminate.
Defined.

End RankFacts.

Section SortQualities.
Import helpers.

Lemma tagged_forall (qs : list string) :
  Forall (fun e => e = (fst e, parse_quality_from_string (fst e)))
    (sorted_desc (map (fun q => (q, parse_quality_from_string q)) qs)).
Proof.
  eapply Permutation_Forall; [apply sorted_desc_perm|].
  induction qs; simpl; constructor; auto.
Qed.

Lemma sorted_desc_tagged (qs : list string) :
  sorted_desc (map (fun q => (q, parse_quality_from_string q)) qs)
  = map (fun q => (q, parse_quality_from_string q)) (sort_qualities qs).
Proof.
  unfold sort_qualities. pose proof (tagged_forall qs) as H. revert H.
  generalize (sorted_desc (map (fun q => (q, parse_quality_from_string q)) qs)).
  induction l as [|e l IH]; intros H; [reflexivity|].
  inversion H as [|? ? He Hl]; subst. simpl. rewrite <- He, <- IH; auto.
Qed.

Lemma untag (l : list string) :
  map fst (map (fun q => (q, parse_quality_from_string q)) l) = l.
Proof. rewrite map_map. simpl. apply map_id. Qed.

Lemma filter_tagged (k : Z) (l : list string) :
  filter (fun e => snd e =? k)
    (map (fun q => (q, parse_quality_from_string q)) l)
  = map (fun q => (q, parse_quality_from_string q))
      (filter (fun q => rank q =? k) l).
Proof.
  induction l as [|q l IH]; [reflexivity|]. simpl. unfold rank at 1.
  destruct (parse_quality_from_string q =? k); simpl; now rewrite IH.
Qed.

Lemma sorted_tagged (l : list string) :
  Sorted ge_key (map (fun q => (q, parse_quality_from_string q)) l) ->
  Sorted (fun a b => rank b <= rank a) l.
Proof.
  induction l as [|q l IH]; intros H; [constructor|].
  inversion H as [|? ? Hs Hhd]; subst. constructor; [now apply IH|].
  destruct l as [|q' l]; constructor. inversion Hhd; subst. assumption.
Qed.

(** [sort_qualities] rearranges its labels and drops or adds none; the
    result is in non-increasing order of rank; and the labels of one rank
    come out in the order in which they went in. *)
Theorem sort_qualities_sorted_stable (qualities : list string) :
  Permutation qualities (sort_qualities qualities)
  /\ Sorted (fun a b => rank b <= rank a) (sort_qualities qualities)
  /\ (forall k,
         filter (fun q => rank q =? k) (sort_qualities qualities)
         = filter (fun q => rank q =? k) qualities).
Proof.
  pose proof (sorted_desc_tagged qualities) as Ht. split; [|split].
  - rewrite <- (untag qualities) at 1. rewrite <- (untag (sort_qualities qualities)).
    apply Permutation_map. rewrite <- Ht. apply sorted_desc_perm.
  - apply sorted_tagged. rewrite <- Ht. apply sorted_desc_sorted.
  - intros k.
    pose proof (sorted_desc_stable k
                  (map (fun q => (q, parse_quality_from_string q)) qualities))
      as Hs.
    rewrite Ht, !filter_tagged in Hs.
    apply (f_equal (map fst)) in Hs. now rewrite !untag in Hs.
Qed.

End SortQualities.

(** ** The quality map of a video *)

Section QualityMap.
Import pystr video_info.

Lemma dict_keys_set (k v : string) (d : list (string * string)) :
  dict.keys (dict.set k v d)
  = if dict.mem k d then dict.keys d else (dict.keys d ++ [k])%list.
Proof.
  unfold dict.mem, dict.keys. induction d as [|[k' v'] d IH]; simpl; [reflexivity|].
  destruct (String.eqb_spec k' k) as [->|Hne]; simpl; [reflexivity|].
  rewrite IH. destruct (dict.get k d); reflexivity.
Qed.

Lemma dict_get_in_keys {V : Type} (k : string) (d : list (string * V)) :
  dict.get k d = None <-> ~ In k (dict.keys d).
Proof.
  unfold dict.keys. induction d as [|[k' v'] d IH]; simpl; [tauto|].
  destruct (String.eqb_spec k' k) as [->|Hne].
  - split; [discriminate | intros H; exfalso; apply H; now left].
  - rewrite IH. split; [intros H [Hk|Hk]; auto | tauto].
Qed.

(** An assignment to a dictionary keeps its keys distinct. *)
Lemma dict_set_nodup (k v : string) (d : list (string * string)) :
  NoDup (dict.keys d) -> NoDup (dict.keys (dict.set k v d)).
Proof.
  intros H. rewrite dict_keys_set. unfold dict.mem.
  destruct (dict.get k d) eqn:E; [exact H|].
  apply NoDup_app; repeat split; auto.
  - repeat constructor. simpl. tauto.
  - intros x Hx [<-|[]]. now apply dict_get_in_keys in E.
Qed.

(** What was assigned last is what is read. *)
Lemma dict_get_set (k v : string) (d : list (string * string)) :
  dict.get k (dict.set k v d) = Some v.
Proof.
  induction d as [|[k' v'] d IH]; simpl.
  - now rewrite String.eqb_refl.
  - destruct (String.eqb_spec k' k) as [->|Hne]; simpl.
    + now rewrite String.eqb_refl.
    + destruct (String.eqb_spec k' k); [congruence | exact IH].
Qed.

Lemma dict_get_in (k v : string) (d : list (string * string)) :
  dict.get k d = Some v -> In (k, v) d.
Proof.
  induction d as [|[k' v'] d IH]; simpl; [discriminate|].
  destruct (String.eqb_spec k' k) as [->|Hne].
  - intros H; inversion H; subst. now left.
  - intros H. right. now apply IH.
Qed.

Lemma add_player_data_nodup (entries : list (string * option string)) :
  forall links,
    NoDup (dict.keys links) ->
    NoDup (dict.keys (add_player_data links entries)).
Proof.
  unfold add_player_data.
  induction entries as [|[q [u|]] entries IH]; intros links H; simpl; auto.
  apply IH. now apply dict_set_nodup.
Qed.

Lemma add_quality_links_nodup (quality_links : list Tag) :
  forall links,
    NoDup (dict.keys links) ->
    NoDup (dict.keys (add_quality_links links quality_links)).
Proof.
  unfold add_quality_links.
  induction quality_links as [|t ts IH]; intros links H; simpl; auto.
  apply IH. destruct (tag_get t "href") as [u|]; [|exact H].
  destruct (truthy (Some u)); [now apply dict_set_nodup | exact H].
Qed.

Lemma player_data_nodup (scripts : list (list (string * option string))) :
  forall links,
    NoDup (dict.keys links) ->
    NoDup (dict.keys (fold_left add_player_data scripts links)).
Proof.
  induction scripts as [|sc scripts IH]; intros links H; simpl; auto.
  apply IH. now apply add_player_data_nodup.
Qed.

Variable env : Env.

Lemma extract_download_links_nodup (soup : VideoView) (w w' : World)
  (links : list (string * string)) :
  _extract_download_links env soup w = (w', Return links) ->
  NoDup (dict.keys links).
Proof.
  unfold _extract_download_links.
  pose proof (player_data_nodup (player_data_scripts soup) [] (NoDup_nil _)) as Hp.
  destruct (fold_left add_player_data (player_data_scripts soup) [])
    as [|e l] eqn:E.
  - destruct (download_btn soup) as [b|];
      [|intros H; inversion H; constructor].
    destruct (truthy (tag_get b "href"));
      [|intros H; inversion H; constructor].
    unfold try_except, bind.
    destruct (session_get env (tag_get b "href") [] w) as [w1 [r|e]].
    + unfold ret. intros H; inversion H; subst.
      apply add_quality_links_nodup. constructor.
    + destruct (is_Exception e); intros H; inversion H. constructor.
  - intros H; inversion H; subst. exact Hp.
Qed.

(** What a successful [get_video_info] went through. *)
Lemma get_video_info_returned (video_url : option string) (w w' : World)
  (vi : VideoInfo) :
  get_video_info env video_url w = (w', Return vi) ->
  exists u r,
    video_url = Some u
    /\ sendable env u = true
    /\ server env (history w) (GET u []) = Responded r
    /\ _extract_download_links env (video_view r)
         (set_history (history w ++ [GET u []]) w)
       = (w', Return (download_links vi))
    /\ download_links vi <> []
    /\ title vi
       = match h1_title (video_view r) with
         | Some t => strip (text t)
         | None => "film_bez_tytulu"
         end.
Proof.
  unfold get_video_info, try_except, bind at 1, session_get.
  destruct video_url as [u|]; [|discriminate].
  destruct (sendable env u) eqn:Eu; [|discriminate].
  unfold send. destruct (server env (history w) (GET u [])) as [r| |] eqn:Es;
    [|discriminate|discriminate].
  match goal with |- context [if ?b then _ else _] => destruct b end;
    [discriminate|].
  unfold bind at 1, lift.
  destruct (extract_video_id_from_url env u) as [vid|e];
    [|destruct e; discriminate].
  unfold bind at 1.
  destruct (views_group1 (video_view r)) as [[g|]|].
  1: destruct (int_of_views (remove_blanks g)) as [n|e];
       [|destruct e; discriminate].
  all: unfold bind at 1;
    destruct (_extract_download_links env (video_view r)
                (set_history (history w ++ [GET u []]) w))
      as [w2 [[|l ls]|e]] eqn:Ex;
    try discriminate; try (destruct e; discriminate);
    unfold ret; intros H; inversion H; subst; simpl;
    exists u, r; repeat split; auto; discriminate.
Qed.

(** The quality map of a resolved video is not empty and its labels are
    distinct. *)
Theorem get_video_info_quality_map (video_url : option string) (w w' : World)
  (vi : VideoInfo) :
  get_video_info env video_url w = (w', Return vi) ->
  download_links vi <> [] /\ NoDup (dict.keys (download_links vi)).
Proof.
  intros H.
  destruct (get_video_info_returned _ _ _ _ H)
    as (u & r & _ & _ & _ & Hx & Hne & _).
  split; [exact Hne | exact (extract_download_links_nodup _ _ _ _ Hx)].
Qed.

End QualityMap.

(** ** Which exceptions a call can raise *)

Section Raises.

Lemma raises_in_ret {A : Type} (allowed : list exn) (a : A) :
  raises_in allowed (ret a).
Proof. intros w. exact I. Qed.


Lemma raises_in_update (allowed : list exn) (g : World -> World) :
  raises_in allowed (update g).
Proof. intros w. exact I. Qed.

Lemma raises_in_raise {A : Type} (allowed : list exn) (e : exn) :
  In e allowed -> raises_in allowed (@raise A e).
Proof. intros H w. exact H. Qed.

Lemma raises_in_lift {A : Type} (allowed : list exn) (r : result A) :
  raises_only allowed r -> raises_in allowed (lift r).
Proof. intros H w. exact H. Qed.

Lemma raises_in_bind {A C : Type} (allowed : list exn) (m : M A)
  (k : A -> M C) :
  raises_in allowed m -> (forall a, raises_in allowed (k a)) ->
  raises_in allowed (bind m k).
Proof.
  intros Hm Hk w. unfold bind. specialize (Hm w).
  destruct (m w) as [w' [a|e]]; [apply Hk | exact Hm].
Qed.

Lemma raises_in_try_except {A : Type} (inner allowed : list exn) (m : M A)
  (handled : exn -> bool) (h : exn -> M A) :
  raises_in inner m ->
  (forall e, In e inner ->
             if handled e then raises_in allowed (h e) else In e allowed) ->
  raises_in allowed (try_except m handled h).
Proof.
  intros Hm Hh w. unfold try_except. specialize (Hm w).
  destruct (m w) as [w' [a|e]]; [exact I|]. simpl in Hm.
  specialize (Hh e Hm). destruct (handled e); [apply Hh | exact Hh].
Qed.

Lemma raises_in_try_finally {A : Type} (allowed : list exn) (m : M A)
  (fin : M unit) :
  raises_in allowed m -> raises_in allowed fin ->
  raises_in allowed (try_finally m fin).
Proof.
  intros Hm Hf w. unfold try_finally. specialize (Hm w).
  destruct (m w) as [w' r]. specialize (Hf w').
  destruct (fin w') as [w'' [[]|e]]; [exact Hm | exact Hf].
Qed.

Lemma raises_in_weaken {A : Type} (small big : list exn) (m : M A) :
  incl small big -> raises_in small m -> raises_in big m.
Proof.
  intros Hi Hm w. specialize (Hm w). destruct (snd (m w)); [exact I|].
  now apply Hi.
Qed.

Variable env : Env.

Lemma raises_in_send (req : Request) :
  raises_in [RequestException; KeyboardInterrupt] (send env req).
Proof.
  intros w. unfold send. destruct (server env (history w) req); simpl; auto.
Qed.


End Raises.

(** Decides a goal [In e [e1; ...; en]] on constructors, and the side
    conditions of [raises_in_try_except] on an explicit list. *)
Ltac in_list := simpl; tauto.

Ltac handled_cases :=
  let e := fresh "e" in
  let H := fresh "H" in
  intros e H; simpl in H;
  repeat (destruct H as [<-|H];
          [simpl;
           first [ in_list
                 | apply raises_in_raise; in_list
                 | apply raises_in_ret
                 | idtac ]|]);
  try contradiction.

(** ** More on authentication *)

Section AuthFacts.
Import pystr auth.

Variable env : Env.





(** What [login] does to the authentication state: nothing, or, when it
    returns [True], it sets it to the user name given. *)
Lemma login_auth_effect (username_ password : string) (w w' : World)
  (r : result bool) :
  login env username_ password w = (w', r) ->
  (r = Return (logged_in w')
   \/ ((exists e, r = Raise e) /\ logged_in w' = logged_in w))
  /\ ((logged_in w' = logged_in w /\ username w' = username w)
      \/ (r = Return true /\ logged_in w' = true
          /\ username w' = Some username_)).
Proof.
  unfold login, bind at 1, read. destruct (logged_in w) eqn:El.
  { unfold ret. intros H; inversion H; subst. rewrite El. auto. }
  unfold try_except, bind at 1.
  pose proof (get_csrf_token_frames env logged_in io_independent_logged_in w) as Fl.
  pose proof (get_csrf_token_frames env username io_independent_username w) as Fu.
  destruct (get_csrf_token env w) as [w1 [tok|e]]; simpl in Fl, Fu.
  - unfold bind at 1, send.
    destruct (server env (history w1) _) as [resp| |]; cbn [exn_eqb orb].
    + destruct (_ && _); unfold bind, update, ret; intros H; inversion H; subst;
        simpl.
      * split; [left; reflexivity | right; auto].
      * rewrite Fl, Fu, El. split; [left; reflexivity | left; auto].
    + unfold raise. intros H; inversion H; subst. simpl.
      rewrite Fl, Fu, El. split; [right; eauto | left; auto].
    + intros H; inversion H; subst. simpl.
      rewrite Fl, Fu, El. split; [right; eauto | left; auto].
  - destruct (exn_eqb TokenError e || exn_eqb RequestException e).
    + destruct e; unfold raise; intros H; inversion H; subst;
        rewrite Fl, Fu, El; (split; [right; eauto | left; auto]).
    + intros H; inversion H; subst. rewrite Fl, Fu, El.
      split; [right; eauto | left; auto].
Qed.

(** What [logout] does to the authentication state: nothing, or, when it
    returns [True], it clears it. *)
Lemma logout_auth_effect (w w' : World) (r : result bool) :
  logout env w = (w', r) ->
  (r = Return (negb (logged_in w'))
   \/ ((exists e, r = Raise e) /\ logged_in w' = logged_in w))
  /\ ((logged_in w' = logged_in w /\ username w' = username w)
      \/ (r = Return true /\ logged_in w' = false /\ username w' = None)).
Proof.
  unfold logout, bind at 1, read. destruct (logged_in w) eqn:El; cbn [negb].
  2:{ unfold ret. intros H; inversion H; subst. rewrite El. auto. }
  unfold try_except, bind at 1, send.
  destruct (server env (history w) _) as [resp| |]; cbn [exn_eqb].
  - unfold bind, update, ret. intros H; inversion H; subst. simpl. auto.
  - unfold ret. intros H; inversion H; subst. simpl. rewrite El. auto.
  - intros H; inversion H; subst. simpl. rewrite El.
    split; [right; eauto | left; auto].
Qed.

(** The value [login] returns is the state it leaves: [True] when the
    state is authenticated after the call, [False] when it is not; and a
    [login] that raises leaves [logged_in] and the user name as they
    were. *)
Theorem login_result_is_state (username_ password : string) (w w' : World) :
  (forall b, login env username_ password w = (w', Return b) ->
             logged_in w' = b)
  /\ (forall e, login env username_ password w = (w', Raise e) ->
                logged_in w' = logged_in w /\ username w' = username w).
Proof.
  split.
  - intros b H. destruct (login_auth_effect _ _ _ _ _ H) as [[Hr|[[e He] _]] _].
    + now inversion Hr.
    + discriminate.
  - intros e H. destruct (login_auth_effect _ _ _ _ _ H) as [_ [Hs|[Hr _]]].
    + exact Hs.
    + discriminate.
Qed.

(** The value [logout] returns is the state it leaves, too: [True] when
    the state is anonymous after the call, with no user name recorded,
    and [False] when the session is still authenticated. *)
Theorem logout_result_is_state (w w' : World) (b : bool) :
  logout env w = (w', Return b) ->
  logged_in w' = negb b
  /\ (b = true -> auth_consistent w -> username w' = None).
Proof.
  intros H. destruct (logout_auth_effect _ _ _ H) as [[Hr|[[e He] _]] Hs];
    [|discriminate].
  injection Hr as Hb. subst b. split; [now rewrite negb_involutive|].
  intros Ht Hc. destruct Hs as [[Hl Hu]|(_ & _ & Hu)]; [|exact Hu].
  rewrite Hu. apply Hc. rewrite <- Hl. now destruct (logged_in w').
Qed.

(** [login] and [logout] keep the two fields of the authentication state
    in agreement, whatever the site answers and however the call ends. *)
Theorem auth_state_stays_consistent (username_ password : string) (w : World) :
  auth_consistent w ->
  auth_consistent (fst (login env username_ password w))
  /\ auth_consistent (fst (logout env w)).
Proof.
  intros [Ht Hf]. split.
  - destruct (login env username_ password w) as [w' r] eqn:E.
    destruct (login_auth_effect _ _ _ _ _ E) as [_ [[Hl Hu]|(_ & Hl & Hu)]];
      simpl; unfold auth_consistent; rewrite ?Hl, ?Hu; auto.
    split; [discriminate | discriminate].
  - destruct (logout env w) as [w' r] eqn:E.
    destruct (logout_auth_effect _ _ _ E) as [_ [[Hl Hu]|(_ & Hl & Hu)]];
      simpl; unfold auth_consistent; rewrite ?Hl, ?Hu; auto.
    split; [discriminate | reflexivity].
Qed.

(** [ensure_logged_in] follows the last answer of [login] and [logout]:
    it returns [True] after a [login] that returned [True] and after a
    [logout] that returned [False], and raises [AuthenticationError]
    after a [login] that returned [False] and after a [logout] that
    returned [True].  It sends no request, and [False] is a value it never
    returns. *)
Theorem ensure_logged_in_after_auth (username_ password : string)
  (w w' : World) (b : bool) :
  (login env username_ password w = (w', Return b) ->
   ensure_logged_in w'
   = (w', if b then Return true else Raise AuthenticationError))
  /\ (logout env w = (w', Return b) ->
      ensure_logged_in w'
      = (w', if b then Raise AuthenticationError else Return true))
  /\ (forall w0, snd (ensure_logged_in w0) <> Return false).
Proof.
  split; [|split].
  - intros H. destruct (login_auth_effect _ _ _ _ _ H) as [[Hr|[[e He] _]] _];
      [|discriminate].
    injection Hr as Hb. unfold ensure_logged_in, bind, read.
    rewrite <- Hb. now destruct b.
  - intros H. destruct (logout_auth_effect _ _ _ H) as [[Hr|[[e He] _]] _];
      [|discriminate].
    injection Hr as Hb. unfold ensure_logged_in, bind, read.
    destruct (logged_in w'); subst b; reflexivity.
  - intros w0. unfold ensure_logged_in, bind, read.
    destruct (logged_in w0); simpl; discriminate.
Qed.

End AuthFacts.

Section TokenSource.
Import pystr auth.

Variable env : Env.

(** Where the token comes from.  The value of the input named _token,
    when it has one, is the token whatever else the page holds; the meta
    tag is read when no input of the three names is there; and an element
    that is found but has neither value nor content hides the elements
    after it: with no script to fall back on, the call raises
    [TokenError] although a later element may hold a token. *)
Theorem csrf_token_source (w : World) (r : Response) :
  server env (history w) (GET config.login_url []) = Responded r ->
  (forall t tok,
      input__token (login_view r) = Some t ->
      tag_get t "value" = Some tok -> tok <> EmptyString ->
      snd (get_csrf_token env w) = Return tok)
  /\ (forall t tok,
         input__token (login_view r) = None ->
         input_csrf_token (login_view r) = None ->
         input_token (login_view r) = None ->
         meta_csrf_token (login_view r) = Some t ->
         truthy (tag_get t "value") = false ->
         tag_get t "content" = Some tok -> tok <> EmptyString ->
         snd (get_csrf_token env w) = Return tok)
  /\ (forall t,
         input__token (login_view r) = Some t ->
         truthy (tag_get t "value") = false ->
         truthy (tag_get t "content") = false ->
         login_scripts (login_view r) = [] ->
         snd (get_csrf_token env w) = Raise TokenError).
Proof.
  intros Hs. unfold get_csrf_token, try_except, bind, send. rewrite Hs.
  split; [|split].
  - intros t tok Ht Hv Hne. rewrite Ht. simpl. unfold str_or. rewrite Hv.
    destruct tok; [congruence|]. reflexivity.
  - intros t tok H1 H2 H3 H4 Hv Hc Hne. rewrite H1, H2, H3, H4. simpl.
    unfold str_or. rewrite Hv, Hc. destruct tok; [congruence|]. reflexivity.
  - intros t Ht Hv Hc Hscripts. rewrite Ht. simpl. unfold str_or.
    rewrite Hv, Hc, Hscripts. reflexivity.
Qed.

End TokenSource.

(** ** More on resolving a video *)

Section VideoFacts.
Import pystr video_info downloader.

Variable env : Env.

Lemma first_containing_in (p q : string) (qs : list string) :
  first_containing p qs = Some q -> In q qs.
Proof.
  induction qs as [|x qs IH]; simpl; [discriminate|].
  destruct (contains p x); [intros H; inversion H; now left|].
  intros H. right. now apply IH.
Qed.

Lemma in_keys_get (q : string) (d : list (string * string)) :
  In q (dict.keys d) -> exists u, dict.get q d = Some u.
Proof.
  intros H. destruct (dict.get q d) as [u|] eqn:E; [now exists u|].
  now apply dict_get_in_keys in E.
Qed.

(** On a map that is not empty the selection returns an entry of the map,
    whatever is preferred. *)
Lemma select_quality_total (vi : VideoInfo) (preferred : option string) :
  download_links vi <> [] ->
  exists q u,
    _select_quality vi preferred = Return (q, u)
    /\ In (q, u) (download_links vi).
Proof.
  intros Hne.
  assert (Hbest : exists q u, get_best_quality vi = Return (q, u)
                              /\ In (q, u) (download_links vi)).
  { unfold get_best_quality. destruct (download_links vi) as [|e links] eqn:El;
      [congruence|].
    destruct (best_of_links e links)
      as (pre & q & u & post & Hsplit & [rest Hsort] & Hpre & _).
    exists q, u. rewrite Hsort. unfold item.
    rewrite Hsplit, dict_get_skip.
    - split; [reflexivity|]. apply in_or_app. right. now left.
    - eapply Forall_impl; [|exact Hpre]. intros x Hx Heq. simpl in Hx.
      rewrite Heq in Hx. lia. }
  unfold _select_quality. destruct preferred as [p|]; [|exact Hbest].
  destruct (truthy (Some p)); [|exact Hbest].
  unfold dict.mem, item.
  destruct (dict.get p (download_links vi)) as [u|] eqn:Ep.
  { exists p, u. split; [reflexivity | now apply dict_get_in]. }
  destruct (first_containing p (dict.keys (download_links vi))) as [q|] eqn:Ef;
    [|exact Hbest].
  apply first_containing_in in Ef. destruct (in_keys_get _ _ Ef) as [u Hu].
  exists q, u. rewrite Hu. split; [reflexivity | now apply dict_get_in].
Qed.

(** Once [get_video_info] has returned, choosing a quality cannot fail:
    for any preferred quality, [_select_quality] returns an entry of the
    video's quality map, and so does [get_download_link]. *)
Theorem selection_after_resolution (video_url : option string)
  (w w' : World) (vi : VideoInfo) (preferred : option string) :
  get_video_info env video_url w = (w', Return vi) ->
  (exists q u,
      _select_quality vi preferred = Return (q, u)
      /\ In (q, u) (download_links vi))
  /\ (exists q u,
         get_download_link vi preferred = Return (q, u)
         /\ In (q, u) (download_links vi)).
Proof.
  intros H.
  destruct (get_video_info_returned env _ _ _ _ H) as (_ & _ & _ & _ & _ & _ & Hne & _).
  split; [now apply select_quality_total|].
  unfold get_download_link.
  destruct (download_links vi) as [|e l] eqn:El; [congruence|].
  assert (Hbest : exists q u, get_best_quality vi = Return (q, u)
                              /\ In (q, u) (e :: l)).
  { destruct (select_quality_total vi None) as (q & u & Hq & Hin);
      [congruence|].
    exists q, u. split; [exact Hq | now rewrite <- El]. }
  destruct preferred as [p|]; [|exact Hbest].
  destruct (truthy (Some p) && dict.mem p (e :: l)) eqn:Em; [|exact Hbest].
  apply andb_true_iff in Em as [_ Em]. unfold dict.mem in Em. unfold item.
  destruct (dict.get p (e :: l)) as [u|] eqn:Ep; [|discriminate].
  exists p, u. split; [reflexivity | now apply dict_get_in].
Qed.

(** [get_download_link] is [_select_quality] without the search for a
    label that contains the preferred string.  The two agree whenever the
    preferred string is not given, is a label of the map, or is contained
    in no label.  When it is given, is no label and is contained in one,
    [_select_quality] returns the first label that contains it and
    [get_download_link] the best quality, so that the two agree exactly
    when that first label is the best quality: on the map 720p, 1080p they
    part for 720 and agree for 1080. *)
Theorem get_download_link_vs_select_quality (vi : VideoInfo)
  (preferred : option string) :
  ((match preferred with
    | Some p =>
        dict.mem p (download_links vi) = true
        \/ first_containing p (dict.keys (download_links vi)) = None
        \/ truthy preferred = false
    | None => True
    end) ->
   get_download_link vi preferred = _select_quality vi preferred)
  /\ (forall p q,
         truthy (Some p) = true ->
         dict.mem p (download_links vi) = false ->
         first_containing p (dict.keys (download_links vi)) = Some q ->
         exists u,
           dict.get q (download_links vi) = Some u
           /\ _select_quality vi (Some p) = Return (q, u)
           /\ get_download_link vi (Some p) = get_best_quality vi
           /\ (get_download_link vi (Some p) = _select_quality vi (Some p)
               <-> get_best_quality vi = Return (q, u)))
  /\ (forall t i th de au du vw,
         let example :=
           mkVideoInfo t i [("720p", "a"); ("1080p", "b")] th de au du vw in
         get_download_link example (Some "720") = Return ("1080p", "b")
         /\ _select_quality example (Some "720") = Return ("720p", "a")
         /\ get_download_link example (Some "1080") = Return ("1080p", "b")
         /\ _select_quality example (Some "1080") = Return ("1080p", "b")).
Proof.
  split; [|split; [|intros; repeat split; reflexivity]].
  - unfold get_download_link, _select_quality.
    destruct preferred as [p|].
    + destruct (download_links vi) as [|e l] eqn:El.
      * intros _. unfold get_best_quality. rewrite El. simpl.
        destruct p; reflexivity.
      * destruct (truthy (Some p)) eqn:Et; cbn [andb]; [|reflexivity].
        intros [Hm|[Hf|Hf]]; [now rewrite Hm| |discriminate].
        destruct (dict.mem p (e :: l)); [reflexivity | now rewrite Hf].
    + intros _. destruct (download_links vi) eqn:El; [|reflexivity].
      unfold get_best_quality. now rewrite El.
  - intros p q Ht Hm Hf.
    pose proof (first_containing_in _ _ _ Hf) as Hin.
    destruct (in_keys_get _ _ Hin) as [u Hu]. exists u.
    assert (Hsel : _select_quality vi (Some p) = Return (q, u)).
    { unfold _select_quality, item. now rewrite Ht, Hm, Hf, Hu. }
    assert (Hlink : get_download_link vi (Some p) = get_best_quality vi).
    { unfold get_download_link. rewrite Ht, Hm. cbn [andb].
      destruct (download_links vi) eqn:El; [|reflexivity].
      unfold get_best_quality. now rewrite El. }
    split; [exact Hu|]. split; [exact Hsel|]. split; [exact Hlink|].
    rewrite Hlink, Hsel. tauto.
Qed.



(** The download page is asked for only when it is needed, and only when
    it can be.  When the scripts of the video page yield a link,
    [_extract_download_links] sends no request and returns what the
    scripts gave.  When they yield none and the page has a download
    button, the address of the button decides: to an http or https
    address exactly one request is sent, whose anchors make the map and
    whose failure gives the empty map, not an exception; for any other
    address, a relative link included, nothing is sent and the map is
    empty.  Without a button the map is empty as well. *)
Theorem extract_download_links_escalation (soup : VideoView) (w : World) :
  (fold_left add_player_data (player_data_scripts soup) [] <> [] ->
   _extract_download_links env soup w
   = (w, Return (fold_left add_player_data (player_data_scripts soup) [])))
  /\ (forall b h,
         fold_left add_player_data (player_data_scripts soup) [] = [] ->
         download_btn soup = Some b ->
         tag_get b "href" = Some h -> h <> EmptyString ->
         sendable env h = true ->
         history (fst (_extract_download_links env soup w))
         = (history w ++ [GET h []])%list
         /\ (server env (history w) (GET h []) = Failed ->
             snd (_extract_download_links env soup w) = Return [])
         /\ (forall r,
                server env (history w) (GET h []) = Responded r ->
                snd (_extract_download_links env soup w)
                = Return (add_quality_links [] (quality_btns r))))
  /\ (forall b h,
         fold_left add_player_data (player_data_scripts soup) [] = [] ->
         download_btn soup = Some b ->
         tag_get b "href" = Some h ->
         has_http_scheme h = false \/ accepts_url env h = false ->
         _extract_download_links env soup w = (w, Return []))
  /\ (fold_left add_player_data (player_data_scripts soup) [] = [] ->
      download_btn soup = None ->
      _extract_download_links env soup w = (w, Return [])).
Proof.
  unfold _extract_download_links. split; [|split; [|split]].
  - destruct (fold_left _ _ _); [congruence | reflexivity].
  - intros b h He Hb Hh Hne Hs. rewrite He, Hb, Hh.
    assert (Ht : truthy (Some h) = true) by (destruct h; [congruence|reflexivity]).
    rewrite Ht. unfold try_except, bind, session_get. rewrite Hs. unfold send.
    destruct (server env (history w) (GET h [])); simpl;
      (split; [reflexivity|]); split; intros; try discriminate; try reflexivity.
    congruence.
  - intros b h He Hb Hh Hs. rewrite He, Hb, Hh.
    assert (Hn : sendable env h = false).
    { unfold sendable. destruct Hs as [-> | ->];
        [reflexivity | apply andb_false_r]. }
    destruct (truthy (Some h)); [|reflexivity].
    unfold try_except, bind, session_get. now rewrite Hn.
  - intros He Hb. now rewrite He, Hb.
Qed.

End VideoFacts.

(** ** More on downloading *)

Section DownloadFacts.
Import pystr video_info downloader.

Variable env : Env.

Lemma path_eqb_refl (p : Path) : path_eqb p p = true.
Proof. destruct p. simpl. apply String.eqb_refl. Qed.

(** A file that was written is there, with the size written. *)
Lemma file_size_write_file (p : Path) (n : Z) (fs : list (Path * Z)) :
  file_size p (write_file p n fs) = Some n.
Proof.
  induction fs as [|[q m] fs IH]; simpl.
  - now rewrite path_eqb_refl.
  - destruct (path_eqb q p) eqn:E; simpl; rewrite E; [reflexivity | exact IH].
Qed.

Lemma file_size_set_files (p : Path) (fs : list (Path * Z)) (w : World) :
  file_size p (files (set_files fs w)) = file_size p fs.
Proof. reflexivity. Qed.


(** The loop over the chunks: the file holds what was written when the
    loop is left, and the loop is left by [IOError] exactly when a write
    is refused.  Nothing is sent. *)
Lemma write_chunks_spec (p : Path) (cs : list Z) :
  forall downloaded w,
    file_size p (files w) = Some downloaded ->
    file_size p (files (fst (write_chunks env p cs downloaded w)))
    = Some (written env p cs downloaded)
    /\ snd (write_chunks env p cs downloaded w)
       = (if all_written env p cs downloaded
          then Return (written env p cs downloaded) else Raise IOError)
    /\ history (fst (write_chunks env p cs downloaded w)) = history w.
Proof.
  induction cs as [|size rest IH]; intros d w Hw; simpl.
  - repeat split. exact Hw.
  - destruct (0 <? size); [|now apply IH].
    destruct (write_ok env p d size); simpl; [|repeat split; exact Hw].
    unfold bind, update.
    apply (IH (d + size)
             (set_files (write_file p (d + size) (files w)) w)).
    simpl. apply file_size_write_file.
Qed.

Lemma write_chunks_raises (p : Path) (cs : list Z) :
  forall downloaded,
    raises_in [IOError] (write_chunks env p cs downloaded).
Proof.
  induction cs as [|size rest IH]; intros d; simpl; [apply raises_in_ret|].
  destruct (0 <? size); [|apply IH].
  destruct (write_ok env p d size); [|apply raises_in_raise; in_list].
  apply raises_in_bind; [apply raises_in_update | intros; apply IH].
Qed.

Lemma total_size_of_raises (r : Response) :
  raises_only [ValueError] (total_size_of r).
Proof.
  unfold total_size_of. destruct (content_length r) as [header|]; [|exact I].
  destruct (int_of_str header); [exact I | in_list].
Qed.


(** [_download_file] once the response is there and the header of its
    length is read. *)
Lemma download_file_streams (url : string) (filepath : Path) (w : World)
  (r : Response) (n : Z) :
  sendable env url = true ->
  server env (history w) (GET url []) = Responded r ->
  total_size_of r = Return n ->
  has_nul filepath = false ->
  disk_ok env filepath = true ->
  file_size filepath (files (fst (_download_file env url filepath w)))
  = Some (written env filepath (chunks r) 0)
  /\ snd (_download_file env url filepath w)
     = (if all_written env filepath (chunks r) 0
        then match stream_end r with
             | StreamDone => Return tt
             | StreamBroken => Raise DownloadError
             | StreamInterrupted => Raise KeyboardInterrupt
             end
        else Raise FileError).
Proof.
  intros Hu Hr Hn Hz Hd.
  set (w1 := set_files
               (write_file filepath 0
                  (files (set_history (history w ++ [GET url []]) w)))
               (set_history (history w ++ [GET url []]) w)).
  assert (E : _download_file env url filepath w
              = match write_chunks env filepath (chunks r) 0 w1 with
                | (w2, Return _) =>
                    (w2, match stream_end r with
                         | StreamDone => Return tt
                         | StreamBroken => Raise DownloadError
                         | StreamInterrupted => Raise KeyboardInterrupt
                         end)
                | (w2, Raise IOError) => (w2, Raise FileError)
                | (w2, Raise e) => (w2, Raise e)
                end).
  { unfold _download_file, try_except, bind, session_get. rewrite Hu.
    unfold send. rewrite Hr. unfold lift. rewrite Hn, Hz, Hd. unfold update.
    fold w1.
    pose proof (write_chunks_raises filepath (chunks r) 0 w1) as Hw.
    destruct (write_chunks env filepath (chunks r) 0 w1) as [w2 [k|e]].
    - destruct (stream_end r); reflexivity.
    - simpl in Hw. destruct Hw as [<-|[]]. reflexivity. }
  rewrite E.
  destruct (write_chunks_spec filepath (chunks r) 0 w1) as (Hsize & Hres & _).
  { subst w1. simpl. apply file_size_write_file. }
  destruct (write_chunks env filepath (chunks r) 0 w1) as [w2 res].
  cbn [fst snd] in Hsize, Hres. subst res.
  destruct (all_written env filepath (chunks r) 0); split; auto.
Qed.


Lemma download_file_returned (url : string) (filepath : Path) (w w' : World) :
  _download_file env url filepath w = (w', Return tt) ->
  file_size filepath (files w') <> None.
Proof.
  intros H.
  assert (Hu : sendable env url = true).
  { revert H. unfold _download_file, try_except, bind at 1, session_get.
    destruct (sendable env url); [reflexivity | discriminate]. }
  destruct (server env (history w) (GET url [])) as [r| |] eqn:Hr.
  2,3: revert H; unfold _download_file, try_except, bind at 1, session_get;
       rewrite Hu; unfold send; rewrite Hr; discriminate.
  destruct (total_size_of r) as [n|e] eqn:Hn.
  2:{ revert H. unfold _download_file, try_except, bind, session_get.
      rewrite Hu. unfold send. rewrite Hr. unfold lift. rewrite Hn.
      pose proof (total_size_of_raises r) as Ht. rewrite Hn in Ht.
      destruct Ht as [<-|[]]. discriminate. }
  destruct (has_nul filepath) eqn:Hz.
  1:{ revert H. unfold _download_file, try_except, bind, session_get.
      rewrite Hu. unfold send. rewrite Hr. unfold lift. rewrite Hn, Hz.
      discriminate. }
  destruct (disk_ok env filepath) eqn:Hd.
  2:{ revert H. unfold _download_file, try_except, bind, session_get.
      rewrite Hu. unfold send. rewrite Hr. unfold lift. rewrite Hn, Hz, Hd.
      discriminate. }
  destruct (download_file_streams url filepath w r n Hu Hr Hn Hz Hd)
    as [Hsize _].
  rewrite H in Hsize. cbn [fst] in Hsize. rewrite Hsize. discriminate.
Qed.

Lemma download_returned (video_url preferred : option string)
  (w w' : World) (filepath : Path) :
  download env video_url preferred w = (w', Return filepath) ->
  exists w1 vi quality u,
    get_video_info env video_url w = (w1, Return vi)
    /\ _select_quality vi preferred = Return (quality, u)
    /\ In (quality, u) (download_links vi)
    /\ filepath
       = joinpath (download_dir w)
           (helpers.sanitize_filename (title vi) ++ "_" ++ quality ++ ".mp4")
    /\ file_size filepath (files w') <> None
    /\ download_dir w' = download_dir w.
Proof.
  intros H.
  pose proof (download_frames env download_dir video_url preferred
                io_independent_download_dir w) as Hdir.
  rewrite H in Hdir. simpl in Hdir.
  revert H. unfold download, try_except, bind at 1.
  pose proof (get_video_info_frames env download_dir video_url
                io_independent_download_dir w) as Hd1.
  destruct (get_video_info env video_url w) as [w1 [vi|e]] eqn:Ev;
    [|destruct (is_Exception e); discriminate].
  simpl in Hd1. unfold bind at 1, lift.
  destruct (get_video_info_returned env _ _ _ _ Ev) as (_ & _ & _ & _ & _ & _ & Hne & _).
  destruct (select_quality_total vi preferred Hne) as (q & u & Hsel & Hin).
  rewrite Hsel. unfold bind at 1, read. cbn [fst snd]. unfold bind at 1.
  destruct (_download_file env u _ w1) as [w2 [[]|e]] eqn:Ef;
    [|destruct (is_Exception e); discriminate].
  unfold ret. intros H; inversion H; subst.
  exists w1, vi, q, u. rewrite Hd1. repeat split; auto.
  rewrite <- Hd1. apply (download_file_returned _ _ _ _ Ef).
Qed.

(** A download that returns has written its file, and the path it
    returns is the file of that name in the download directory: the
    sanitized title of the video, an underscore, the label of the quality
    map that was selected, and the extension mp4.  The download directory
    itself is as it was. *)
Theorem download_returns_written_file (video_url preferred : option string)
  (w w' : World) (filepath : Path) :
  download env video_url preferred w = (w', Return filepath) ->
  exists w1 vi quality u,
    get_video_info env video_url w = (w1, Return vi)
    /\ _select_quality vi preferred = Return (quality, u)
    /\ In (quality, u) (download_links vi)
    /\ filepath
       = joinpath (download_dir w)
           (helpers.sanitize_filename (title vi) ++ "_" ++ quality ++ ".mp4")
    /\ file_size filepath (files w') <> None
    /\ download_dir w' = download_dir w.
Proof. apply download_returned. Qed.

Lemma download_raises_in (video_url preferred : option string) :
  raises_in [DownloadError; KeyboardInterrupt]
    (download env video_url preferred).
Proof.
  intros w. destruct (snd (download env video_url preferred w)) as [p|e] eqn:E;
    [exact I|].
  destruct (download_raises env _ _ _ _ E) as [-> | ->]; in_list.
Qed.

(** [download] raises [DownloadError] and nothing else of its own: a
    [VideoInfoError], an [AuthenticationError] or a [FileError] raised
    inside never leaves it as such; only an interrupt by the user passes
    through, and without one [DownloadError] is all there is. *)
Theorem download_raises_only_DownloadError (video_url preferred : option string) :
  raises_in [DownloadError; KeyboardInterrupt]
    (download env video_url preferred)
  /\ (never_interrupts env ->
      raises_in [DownloadError] (download env video_url preferred)).
Proof.
  split; [apply download_raises_in|].
  - intros Hq w.
    pose proof (download_calm env Hq video_url preferred w) as Hc.
    destruct (snd (download env video_url preferred w)) as [p|e] eqn:E;
      [exact I|].
    destruct (download_raises env _ _ _ _ E) as [-> | ->]; [in_list|].
    exfalso. now apply Hc.
Qed.

End DownloadFacts.

(** ** More on listings *)

Section StripFacts.
Import pystr.

Lemma lstrip_idempotent (s : string) : lstrip (lstrip s) = lstrip s.
Proof.
  induction s as [|c s IH]; simpl; [reflexivity|].
  destruct (is_space c) eqn:E; [exact IH|]. simpl. now rewrite E.
Qed.

Lemma lstrip_head (s r : string) (c : ascii) :
  lstrip s = String c r -> is_space c = false.
Proof.
  induction s as [|d s IH]; simpl; [discriminate|].
  destruct (is_space d) eqn:E; [exact IH|]. intros H; inversion H; subst.
  exact E.
Qed.

Lemma lstrip_suffix (s : string) : exists pre, s = pre ++ lstrip s.
Proof.
  induction s as [|c s [pre IH]]; simpl; [now exists EmptyString|].
  destruct (is_space c).
  - exists (String c pre). simpl. now rewrite <- IH.
  - now exists EmptyString.
Qed.

Lemma rev_acc_app (s acc : string) : rev_acc s acc = rev s ++ acc.
Proof.
  unfold rev. revert acc; induction s as [|c s IH]; intros acc; simpl;
    [reflexivity|].
  rewrite IH, (IH (String c EmptyString)), append_assoc. reflexivity.
Qed.

Lemma rev_cons (c : ascii) (s : string) :
  rev (String c s) = rev s ++ String c EmptyString.
Proof. unfold rev at 1. simpl. apply rev_acc_app. Qed.

Lemma rev_app (a b : string) : rev (a ++ b) = rev b ++ rev a.
Proof.
  induction a as [|c a IH]; simpl.
  - rewrite append_empty_r. reflexivity.
  - rewrite !rev_cons, IH, append_assoc. reflexivity.
Qed.

Lemma rev_involutive (s : string) : rev (rev s) = s.
Proof.
  induction s as [|c s IH]; [reflexivity|].
  rewrite rev_cons, rev_app, IH. reflexivity.
Qed.

(** A stripped string has no white space left at its ends: stripping it
    again changes nothing. *)
Lemma strip_idempotent (s : string) : strip (strip s) = strip s.
Proof.
  unfold strip at 2. set (a := lstrip s). set (b := lstrip (rev a)).
  assert (Hleft : lstrip (rev b) = rev b).
  { destruct (rev b) as [|c r] eqn:Eb; [reflexivity|].
    destruct (lstrip_suffix (rev a)) as [pre Hpre]. fold b in Hpre.
    apply (f_equal rev) in Hpre. rewrite rev_involutive, rev_app, Eb in Hpre.
    simpl in Hpre. subst a.
    pose proof (lstrip_head s _ c Hpre) as Hc. simpl. now rewrite Hc. }
  unfold strip. rewrite Hleft, rev_involutive. subst b.
  now rewrite lstrip_idempotent.
Qed.

End StripFacts.

Section ListingFacts.
Import pystr search search_query.

Lemma full_url_absolute (url0 : option string) :
  absolute_or_empty (full_url url0).
Proof.
  unfold full_url, absolute_or_empty. destruct url0 as [u|]; [|exact I].
  destruct (truthy (Some u)) eqn:Et; cbn [andb].
  - destruct (startswith u "http") eqn:Es; cbn [negb]; [now right|].
    right. reflexivity.
  - left. destruct u; [reflexivity | discriminate].
Qed.

(** What [_parse_search_results] hands on can be used as it is: the URL
    of every record is absent, empty, or a full address starting with
    http, a relative link having got the address of the site in front;
    and the title of every record is stripped of white space at both
    ends. *)
Theorem parse_results_normalized (soup : ListingView)
  (results : list SearchResult) :
  _parse_search_results soup = Return results ->
  Forall (fun r => absolute_or_empty (url r) /\ strip (title r) = title r)
    results.
Proof.
  unfold _parse_search_results.
  destruct (login_premium_requied soup); [discriminate|].
  destruct (parse_elements_records (video_elements soup) []) as (rs & Hrs & Hall).
  rewrite Hrs. simpl. intros H; inversion H; subst. clear H Hrs.
  induction Hall as [|e r es rs (t & u & _ & _ & Ht & Hu) _ IH]; constructor;
    [|exact IH].
  rewrite Ht, Hu. split; [apply full_url_absolute | apply strip_idempotent].
Qed.

Lemma parse_search_results_raises (soup : ListingView) :
  raises_only [AuthenticationError] (_parse_search_results soup).
Proof.
  unfold _parse_search_results.
  destruct (login_premium_requied soup); [simpl; auto|].
  destruct (parse_elements_records (video_elements soup) []) as (rs & Hrs & _).
  rewrite Hrs. exact I.
Qed.

Variable env : Env.

(** A listing request: what [search] and [search_in_folder] do once the
    address and the parameters are built. *)
Lemma listing_request_failures (req : Request) :
  fails_as_listing env
    (try_except
       (let* response := send env req in
        lift (_parse_search_results (listing_view response)))
       (exn_eqb RequestException)
       (fun _ => raise SearchError))
    req.
Proof.
  split; [|split; [|split]].
  - apply raises_in_try_except
      with (inner := [RequestException; KeyboardInterrupt; AuthenticationError]);
      [|handled_cases].
    apply raises_in_bind.
    + eapply raises_in_weaken; [|apply raises_in_send].
      intros e He. simpl in *. tauto.
    + intros r. apply raises_in_lift.
      pose proof (parse_search_results_raises (listing_view r)) as Hp.
      destruct (_parse_search_results (listing_view r)); [exact I|].
      simpl in *. tauto.
  - intros w. unfold try_except, bind, send, lift.
    destruct (server env (history w) req) as [r| |]; try reflexivity.
    pose proof (parse_search_results_raises (listing_view r)) as Hp.
    destruct (_parse_search_results (listing_view r)) as [rs|e]; [reflexivity|].
    destruct Hp as [<-|[]]. reflexivity.
  - intros w Hf. unfold try_except, bind, send. now rewrite Hf.
  - intros w r t Hr Ht. unfold try_except, bind, send, lift.
    rewrite Hr. unfold _parse_search_results. now rewrite Ht.
Qed.


End ListingFacts.

(** ** More on the folder crawl *)

Section CrawlFacts.
Import search cli_handler.

Variable env : Env.

Lemma crawl_loop_step (fuel : nat) (folder_id : string)
  (quality : option string) (end_page : option Z) (premium_only : bool)
  (c : CrawlCursor) (w : World) :
  crawl_loop env (S fuel) folder_id quality end_page premium_only c w
  = match crawl_turn env folder_id quality end_page premium_only c w with
    | (w', Return (Break c')) => (w', Return (Some c'))
    | (w', Return (Continue c')) =>
        crawl_loop env fuel folder_id quality end_page premium_only c' w'
    | (w', Raise e) => (w', Raise e)
    end.
Proof.
  cbn [crawl_loop]. unfold bind at 1.
  destruct (crawl_turn env folder_id quality end_page premium_only c w)
    as [w' [[c'|c']|e]]; reflexivity.
Qed.

(** A turn that goes on has dispatched a page and moved to the next one,
    which does not exceed the end page. *)
Lemma crawl_turn_continue (folder_id : string) (quality : option string)
  (end_page : option Z) (premium_only : bool) (c c' : CrawlCursor)
  (w w' : World) :
  crawl_turn env folder_id quality end_page premium_only c w
    = (w', Return (Continue c')) ->
  current_page c' = current_page c + 1
  /\ total_downloaded c <= total_downloaded c'
  /\ total_skipped c <= total_skipped c'
  /\ bounded end_page && exceeds (current_page c + 1) end_page = false.
Proof.
  intros T.
  destruct (search_in_folder env folder_id (current_page c) w)
    as [w1 [[|x xs]|e]] eqn:Hs.
  - rewrite (crawl_turn_empty_page env _ _ _ _ _ _ _ Hs) in T. discriminate.
  - pose proof (crawl_turn_spec env _ _ _ _ _ _ _ _ T) as [Hb Hc].
    rewrite Hs in Hb, Hc. cbn [snd is_break cursor_of] in Hb, Hc.
    destruct Hc as (Hp & _ & Hd & Hk). repeat split; auto.
    destruct (bounded end_page && exceeds (current_page c + 1) end_page) eqn:E;
      [|reflexivity].
    apply andb_true_iff in E. symmetry. apply Hb. auto.
  - rewrite (crawl_turn_fetch_raises env _ _ _ _ _ _ _ _ Hs) in T.
    destruct (exn_eqb SearchError e); discriminate.
Qed.

Lemma crawl_turn_break (folder_id : string) (quality : option string)
  (end_page : option Z) (premium_only : bool) (c c' : CrawlCursor)
  (w w' : World) :
  crawl_turn env folder_id quality end_page premium_only c w
    = (w', Return (Break c')) ->
  current_page c <= current_page c' <= current_page c + 1
  /\ total_downloaded c <= total_downloaded c'
  /\ total_skipped c <= total_skipped c'.
Proof.
  intros T. pose proof (crawl_turn_spec env _ _ _ _ _ _ _ _ T) as [_ Hc].
  cbn [cursor_of] in Hc.
  destruct (snd (search_in_folder env folder_id (current_page c) w))
    as [[|x xs]|e]; try (subst c'; lia).
  destruct Hc as (Hp & _ & Hd & Hk). lia.
Qed.

Lemma crawl_loop_bounded (folder_id : string) (quality : option string)
  (premium_only : bool) (e : Z) :
  e <> 0 ->
  forall fuel c w,
    1 <= Z.of_nat fuel ->
    e - current_page c + 1 <= Z.of_nat fuel ->
    snd (crawl_loop env fuel folder_id quality (Some e) premium_only c w)
    <> Return None.
Proof.
  intros He. induction fuel as [|fuel IH]; intros c w H1 H2; [simpl in H1; lia|].
  rewrite crawl_loop_step.
  destruct (crawl_turn env folder_id quality (Some e) premium_only c w)
    as [w' [[c'|c']|ex]] eqn:T; cbn [snd]; try discriminate.
  apply crawl_turn_continue in T as (Hp & _ & _ & Hb).
  assert (Hbd : bounded (Some e) = true).
  { unfold bounded. destruct (Z.eqb_spec e 0); [contradiction | reflexivity]. }
  rewrite Hbd in Hb. cbn [andb exceeds] in Hb. apply Z.ltb_ge in Hb.
  apply IH; rewrite ?Hp; lia.
Qed.

(** A crawl with an end page other than zero always ends, after at most
    end_page - start_page + 1 turns and at least one.  When the start page
    is the end page or lies beyond it the crawl is that one turn, and the
    page it starts at is fetched and dispatched even then: the totals are
    those of the batch over the records of that page. *)
Theorem bounded_crawl_terminates (fuel : nat) (folder_id : string)
  (quality : option string) (start_page end_page : Z) (premium_only : bool)
  (w : World) :
  end_page <> 0 ->
  Z.max 1 (end_page - start_page + 1) <= Z.of_nat fuel ->
  snd (_download_folder env fuel folder_id quality start_page (Some end_page)
         premium_only w)
  <> Return None
  /\ (end_page <= start_page ->
      forall w1 x xs,
        search_in_folder env folder_id start_page w
          = (w1, Return (x :: xs)) ->
        let dispatched :=
          if premium_only then filter premium (x :: xs) else x :: xs in
        _download_folder env fuel folder_id quality start_page (Some end_page)
          premium_only w
        = match _download_all_from_results env dispatched quality None w1 with
          | (w2, Return (d, s)) =>
              (w2,
               Return
                 (Some (d, Z.of_nat (length (x :: xs))
                           - Z.of_nat (length dispatched) + s)))
          | (w2, Raise e) => (w2, Raise e)
          end).
Proof.
  intros He Hf. split.
  - unfold _download_folder, bind.
    pose proof (crawl_loop_bounded folder_id quality premium_only end_page He
                  fuel (mkCursor start_page 0 0) w) as Hb.
    cbn [current_page] in Hb.
    destruct (crawl_loop env fuel folder_id quality (Some end_page) premium_only
                (mkCursor start_page 0 0) w) as [w' [[c'|]|ex]];
      cbn [snd option_map] in *; try discriminate.
    exfalso. apply Hb; [lia | lia | reflexivity].
  - intros Hle w1 x xs Hs dispatched.
    destruct fuel as [|fuel]; [simpl in Hf; lia|].
    unfold _download_folder, bind at 1. rewrite crawl_loop_step.
    pose proof (crawl_turn_dispatch env folder_id quality (Some end_page)
                  premium_only (mkCursor start_page 0 0) w w1 x xs Hs) as Hd.
    cbv zeta in Hd. cbn [current_page total_downloaded total_skipped] in Hd.
    fold dispatched in Hd.
    destruct (_download_all_from_results env dispatched quality None w1)
      as [w2 [[d s]|e]].
    + destruct Hd as (c' & _ & Hdl & Hsk & Ht). rewrite Ht.
      assert (Hend : bounded (Some end_page)
                     && exceeds (start_page + 1) (Some end_page) = true).
      { unfold bounded, exceeds.
        destruct (Z.eqb_spec end_page 0); [contradiction|].
        cbn [negb andb]. apply Z.ltb_lt. lia. }
      rewrite Hend. unfold ret. cbn [option_map]. rewrite Hdl, Hsk.
      do 3 f_equal. all: lia.
    + rewrite Hd. reflexivity.
Qed.

Lemma crawl_loop_monotone (folder_id : string) (quality : option string)
  (end_page : option Z) (premium_only : bool) :
  forall fuel c w w' c',
    crawl_loop env fuel folder_id quality end_page premium_only c w
      = (w', Return (Some c')) ->
    current_page c <= current_page c' <= current_page c + Z.of_nat fuel
    /\ total_downloaded c <= total_downloaded c'
    /\ total_skipped c <= total_skipped c'.
Proof.
  induction fuel as [|fuel IH]; intros c w w' c'; [discriminate|].
  rewrite crawl_loop_step.
  destruct (crawl_turn env folder_id quality end_page premium_only c w)
    as [w1 [[c1|c1]|ex]] eqn:T; [| |discriminate].
  - intros H. apply IH in H. apply crawl_turn_continue in T. lia.
  - intros H. inversion H; subst. apply crawl_turn_break in T. lia.
Qed.

(** The totals a crawl prints are never negative, and a crawl that ends
    within [fuel] turns has gone forward by at most that many pages. *)
Theorem download_folder_totals (fuel : nat) (folder_id : string)
  (quality : option string) (start_page : Z) (end_page : option Z)
  (premium_only : bool) (w w' : World) (downloaded skipped : Z) :
  _download_folder env fuel folder_id quality start_page end_page
    premium_only w
  = (w', Return (Some (downloaded, skipped))) ->
  0 <= downloaded /\ 0 <= skipped
  /\ exists c',
       crawl_loop env fuel folder_id quality end_page premium_only
         (mkCursor start_page 0 0) w = (w', Return (Some c'))
       /\ total_downloaded c' = downloaded /\ total_skipped c' = skipped
       /\ start_page <= current_page c' <= start_page + Z.of_nat fuel.
Proof.
  unfold _download_folder, bind.
  destruct (crawl_loop env fuel folder_id quality end_page premium_only
              (mkCursor start_page 0 0) w) as [w1 [[c'|]|ex]] eqn:L;
    unfold ret; cbn [option_map]; intros H; inversion H; subst.
  apply crawl_loop_monotone in L. cbn in L.
  repeat split; try lia. exists c'. repeat split; lia.
Qed.

(** With only premium videos wanted, a page on which no record is premium
    costs no download request: the turn ends in the state the page fetch
    left, counts every record of the page as skipped and none as
    downloaded, and moves to the next page. *)
Theorem premium_only_skips_page (folder_id : string) (quality : option string)
  (end_page : option Z) (c : CrawlCursor) (w w1 : World)
  (x : SearchResult) (xs : list SearchResult) :
  search_in_folder env folder_id (current_page c) w = (w1, Return (x :: xs)) ->
  filter premium (x :: xs) = [] ->
  exists flow,
    crawl_turn env folder_id quality end_page true c w = (w1, Return flow)
    /\ cursor_of flow
       = mkCursor (current_page c + 1) (total_downloaded c)
           (total_skipped c + Z.of_nat (length (x :: xs))).
Proof.
  intros Hs Hf.
  pose proof (crawl_turn_dispatch env folder_id quality end_page true c w w1
                x xs Hs) as Hd.
  cbv zeta in Hd. rewrite Hf in Hd.
  change (_download_all_from_results env [] quality None w1)
    with (w1, @Return (Z * Z) (0, 0)) in Hd.
  destruct Hd as (c' & Hp & Htd & Hts & Ht). rewrite Ht.
  eexists. split; [reflexivity|].
  assert (Hc : c' = mkCursor (current_page c + 1) (total_downloaded c)
                      (total_skipped c + Z.of_nat (length (x :: xs)))).
  { destruct c' as [p d s]. cbn in Hp, Htd, Hts. subst.
    f_equal; cbn [length]; lia. }
  rewrite Hc. destruct (bounded end_page && _); reflexivity.
Qed.

End CrawlFacts.

(** ** The interactive runner beside the command line *)

Section RunnerFacts.
Import search cli_handler.

Variable env : Env.

Lemma runner_download_each_step (quality : option string) (r : SearchResult)
  (rest : list SearchResult) (d s : Z) (w : World) :
  runner.download_each env quality (r :: rest) d s w
  = match downloader.download env (url r) quality w with
    | (w1, Return _) => runner.download_each env quality rest (d + 1) s w1
    | (w1, Raise DownloadError) =>
        runner.download_each env quality rest d (s + 1) w1
    | (w1, Raise e) => (w1, Raise e)
    end.
Proof.
  cbn [runner.download_each]. unfold bind at 1, try_except, bind at 1.
  pose proof (download_raises env (url r) quality w) as Hr.
  destruct (downloader.download env (url r) quality w) as [w1 [p|e]].
  - reflexivity.
  - destruct (Hr e eq_refl) as [-> | ->]; reflexivity.
Qed.

(** The two loops over the records are the same function. *)
Lemma runner_download_each_same (quality : option string)
  (results : list SearchResult) :
  forall d s w,
    runner.download_each env quality results d s w
    = download_each env quality results d s w.
Proof.
  induction results as [|r rest IH]; intros d s w; [reflexivity|].
  rewrite runner_download_each_step, download_each_step.
  destruct (downloader.download env (url r) quality w) as [w1 [p|e]];
    [apply IH|].
  destruct e; try reflexivity. apply IH.
Qed.

(** The counters of the loop only add up: starting it from other counts
    shifts its result by the difference. *)
Lemma download_each_shift (quality : option string)
  (results : list SearchResult) :
  forall d s k l w,
    download_each env quality results (d + k) (s + l) w
    = match download_each env quality results d s w with
      | (w', Return (a, b)) => (w', Return (a + k, b + l))
      | (w', Raise e) => (w', Raise e)
      end.
Proof.
  induction results as [|r rest IH]; intros d s k l w; [reflexivity|].
  rewrite !download_each_step.
  destruct (downloader.download env (url r) quality w) as [w1 [p|e]].
  - replace (d + k + 1) with (d + 1 + k) by lia. apply IH.
  - destruct e; try reflexivity.
    replace (s + l + 1) with (s + 1 + l) by lia. apply IH.
Qed.

Lemma batch_without_override (results : list SearchResult)
  (quality : option string) (w : World) :
  _download_all_from_results env results quality None w
  = download_each env quality results 0 0 w.
Proof.
  destruct results as [|r rest]; [reflexivity|]. apply batch_unfold.
Qed.

(** The batch of the interactive runner and the batch of the command line
    do the same thing: on a list that is not empty they leave the same
    state, with the download directory restored, and print the counts the
    other returns, or raise the same exception.  Catching every exception
    of the application per record, as the runner does, instead of three of
    them changes nothing, since [download] raises only one. *)
Theorem runner_batch_same_as_cli (r : SearchResult) (rest : list SearchResult)
  (quality : option string) (download_dir_ : option Path) (w : World) :
  runner.download_all_from_results env (r :: rest) quality download_dir_ w
  = match _download_all_from_results env (r :: rest) quality download_dir_ w
    with
    | (w', Return counts) => (w', Return (Some counts))
    | (w', Raise e) => (w', Raise e)
    end.
Proof.
  rewrite batch_unfold.
  unfold runner.download_all_from_results, bind, try_finally, read, update, ret.
  destruct download_dir_ as [d|]; cbv zeta;
    rewrite runner_download_each_same;
    match goal with
    | |- context [download_each env quality (r :: rest) 0 0 ?w0] =>
        destruct (download_each env quality (r :: rest) 0 0 w0) as [w1 [c|e]]
    end; reflexivity.
Qed.

Lemma search_in_folder_raises (folder_id : string) (page : Z) (w : World)
  (e : exn) :
  snd (search_in_folder env folder_id page w) = Raise e ->
  e = SearchError \/ e = AuthenticationError \/ e = KeyboardInterrupt.
Proof.
  intros H.
  destruct (listing_request_failures env
              (GET (folder_url folder_id)
                 (if 1 <? page then [("page", PInt page)] else [])))
    as [Hr _].
  specialize (Hr w). unfold search_in_folder in H. unfold folder_url in Hr.
  rewrite H in Hr. destruct Hr as [<-|[<-|[<-|[]]]]; auto.
Qed.

(** One turn of the runner's crawl is one turn of the command line's,
    unless the page fetch raises [AuthenticationError]. *)
Lemma runner_crawl_turn_same (folder_id : string) (quality : option string)
  (end_page : option Z) (premium_only : bool) (c : CrawlCursor) (w : World) :
  snd (search_in_folder env folder_id (current_page c) w)
    <> Raise AuthenticationError ->
  runner.crawl_turn env folder_id quality end_page premium_only c w
  = crawl_turn env folder_id quality end_page premium_only c w.
Proof.
  intros Hno.
  pose proof (search_in_folder_raises folder_id (current_page c) w) as Hr.
  destruct (search_in_folder env folder_id (current_page c) w)
    as [w1 [[|x xs]|e]] eqn:Hs; cbn [snd] in *.
  - rewrite (crawl_turn_empty_page env _ _ _ _ _ _ _ Hs).
    unfold runner.crawl_turn, bind at 1, try_except, bind at 1.
    now rewrite Hs.
  - pose proof (crawl_turn_dispatch env folder_id quality end_page
                  premium_only c w w1 x xs Hs) as Hd.
    cbv zeta in Hd. rewrite batch_without_override in Hd.
    unfold runner.crawl_turn, bind at 1, try_except, bind at 1. rewrite Hs.
    unfold ret at 1. cbv beta iota. unfold bind at 1.
    rewrite runner_download_each_same.
    set (results' := if premium_only then filter premium (x :: xs) else x :: xs)
      in *.
    match goal with
    | |- context [download_each env quality results' (total_downloaded c) ?t w1] =>
        set (ts' := t);
        pose proof (download_each_shift quality results' 0 0
                      (total_downloaded c) ts' w1) as Hsh
    end.
    cbn [Z.add] in Hsh. rewrite Hsh.
    destruct (download_each env quality results' 0 0 w1) as [w2 [[a b]|e]].
    + destruct Hd as (c' & Hp & Htd & Hts & Ht). rewrite Ht.
      cbn [fst snd current_page].
      assert (Hc : c' = mkCursor (current_page c + 1) (a + total_downloaded c)
                          (b + ts')).
      { destruct c' as [p d s].
        cbn [current_page total_downloaded total_skipped] in Hp, Htd, Hts.
        subst p d s. subst ts'.
        pose proof (filter_length_le premium (x :: xs)) as Hlen.
        f_equal; [lia|]. subst results'.
        destruct premium_only; cbn [andb]; [destruct (0 <? _) eqn:Epos|]; lia. }
      rewrite Hc.
      destruct (bounded end_page && exceeds (current_page c + 1) end_page);
        reflexivity.
    + now rewrite Hd.
  - rewrite (crawl_turn_fetch_raises env _ _ _ _ _ _ _ _ Hs).
    unfold runner.crawl_turn, bind at 1, try_except, bind at 1. rewrite Hs.
    destruct (Hr e eq_refl) as [-> | [-> | ->]]; [reflexivity| |reflexivity].
    exfalso. now apply Hno.
Qed.

(** The crawl of the interactive runner and the crawl of the command line
    part at one point only.  As long as no page fetch raises
    [AuthenticationError] the two crawls are equal, in the state they
    leave and in the totals they print; on a folder page with the
    login-wall marker the command line's crawl is left by
    [AuthenticationError] and prints nothing, where the runner's crawl
    stops and prints the totals reached. *)
Theorem runner_crawl_vs_cli (folder_id : string) (quality : option string)
  (start_page : Z) (end_page : option Z) (premium_only : bool) :
  ((forall page w,
       snd (search_in_folder env folder_id page w)
       <> Raise AuthenticationError) ->
   forall fuel w,
     runner.download_folder_impl env fuel folder_id quality start_page
       end_page premium_only w
     = _download_folder env fuel folder_id quality start_page end_page
         premium_only w)
  /\ (forall fuel w w1,
         search_in_folder env folder_id start_page w
           = (w1, Raise AuthenticationError) ->
         _download_folder env (S fuel) folder_id quality start_page end_page
           premium_only w
         = (w1, Raise AuthenticationError)
         /\ runner.download_folder_impl env (S fuel) folder_id quality
              start_page end_page premium_only w
            = (w1, Return (Some (0, 0)))).
Proof.
  split.
  - intros Hno fuel w. unfold runner.download_folder_impl, _download_folder.
    unfold bind.
    assert (Hloop : forall fuel c w,
               runner.crawl_loop env fuel folder_id quality end_page
                 premium_only c w
               = crawl_loop env fuel folder_id quality end_page
                   premium_only c w).
    { clear fuel w. induction fuel as [|fuel IH]; intros c w; [reflexivity|].
      rewrite crawl_loop_step.
      change (runner.crawl_loop env (S fuel) folder_id quality end_page
                premium_only c w)
        with (bind (runner.crawl_turn env folder_id quality end_page
                      premium_only c)
                (fun flow =>
                   match flow with
                   | Break c' => ret (Some c')
                   | Continue c' =>
                       runner.crawl_loop env fuel folder_id quality end_page
                         premium_only c'
                   end) w).
      unfold bind at 1. rewrite runner_crawl_turn_same by apply Hno.
      destruct (crawl_turn env folder_id quality end_page premium_only c w)
        as [w' [[c'|c']|e]]; try reflexivity.
      apply IH. }
    now rewrite Hloop.
  - intros fuel w w1 Hs. split.
    + unfold _download_folder, bind at 1. rewrite crawl_loop_step.
      rewrite (crawl_turn_fetch_raises env folder_id quality end_page
                 premium_only (mkCursor start_page 0 0) w w1 _ Hs).
      reflexivity.
    + unfold runner.download_folder_impl, bind at 1.
      cbn [runner.crawl_loop]. unfold bind at 1.
      unfold runner.crawl_turn, bind at 1, try_except, bind at 1.
      cbn [current_page]. rewrite Hs. reflexivity.
Qed.

End RunnerFacts.

(** ** The commands and the quick script *)

Section Commands.
Import search cli_handler cli_commands.

Variable env : Env.

Lemma search_in_folder_frames {B : Type} (f : World -> B)
  (folder_id : string) (page : Z) :
  io_independent f -> frames (search_in_folder env folder_id page) f.
Proof.
  intros Hf. unfold search_in_folder.
  apply frames_try_except; [|auto with frames].
  apply frames_bind; auto with frames.
Qed.

Lemma batch_frames_download_dir (results : list SearchResult)
  (quality : option string) (download_dir_ : option Path) :
  frames (_download_all_from_results env results quality download_dir_)
    download_dir.
Proof.
  intros w. destruct results as [|r rest]; [reflexivity|]. rewrite batch_unfold.
  destruct download_dir_ as [d|]; [reflexivity|].
  apply (download_each_frames env download_dir quality (r :: rest)
           io_independent_download_dir 0 0 w).
Qed.

Lemma crawl_turn_frames_download_dir (folder_id : string)
  (quality : option string) (end_page : option Z) (premium_only : bool)
  (c : CrawlCursor) :
  frames (crawl_turn env folder_id quality end_page premium_only c)
    download_dir.
Proof.
  unfold crawl_turn. apply frames_bind.
  - apply frames_try_except; [|auto with frames].
    apply frames_bind; [|auto with frames].
    apply search_in_folder_frames. auto with frames.
  - intros [[|x xs]|]; [auto with frames| |auto with frames].
    apply frames_bind; [apply batch_frames_download_dir|]. intros counts.
    match goal with |- frames (if ?b then _ else _) _ => destruct b end;
      auto with frames.
Qed.

Lemma crawl_loop_frames_download_dir (folder_id : string)
  (quality : option string) (end_page : option Z) (premium_only : bool) :
  forall fuel c,
    frames (crawl_loop env fuel folder_id quality end_page premium_only c)
      download_dir.
Proof.
  induction fuel as [|fuel IH]; intros c; cbn [crawl_loop]; [auto with frames|].
  apply frames_bind; [apply crawl_turn_frames_download_dir|].
  intros [c'|c']; [apply IH | auto with frames].
Qed.

(** The directory given to the commands pobierz and pobierz-folder
    replaces the download directory for good: when the command ends,
    whether it returns or raises, the download directory is the one given
    (and the old one when none was given).  Nothing restores it, unlike
    the override of a batch. *)
Theorem commands_keep_their_directory (katalog : option Path) (w : World) :
  let expected :=
    match katalog with
    | Some d => d
    | None => download_dir w
    end in
  (forall url jakosc,
      download_dir (fst (_handle_download env url jakosc katalog w)) = expected)
  /\ (forall fuel id jakosc strona_start strona_koniec tylko_filmy_premium,
         download_dir
           (fst (_handle_download_folder env fuel id jakosc katalog
                   strona_start strona_koniec tylko_filmy_premium w))
         = expected).
Proof.
  intros expected. split.
  - intros url jakosc. unfold _handle_download, bind at 1.
    set (w0 := match katalog with
               | Some d => set_download_dir d w
               | None => w
               end).
    assert (Hw0 : (match katalog with
                   | Some d => update (set_download_dir d)
                   | None => ret tt
                   end) w = (w0, Return tt)) by (destruct katalog; reflexivity).
    rewrite Hw0.
    assert (Hf : frames (let* filepath := downloader.download env (Some url) jakosc
                         in ret tt) download_dir).
    { apply frames_bind; [|auto with frames].
      apply download_frames. auto with frames. }
    rewrite (Hf w0). subst w0 expected. destruct katalog; reflexivity.
  - intros fuel id jakosc s e p. unfold _handle_download_folder, bind at 1.
    set (w0 := match katalog with
               | Some d => set_download_dir d w
               | None => w
               end).
    assert (Hw0 : (match katalog with
                   | Some d => update (set_download_dir d)
                   | None => ret tt
                   end) w = (w0, Return tt)) by (destruct katalog; reflexivity).
    rewrite Hw0.
    assert (Hf : frames (_download_folder env fuel id jakosc s e p) download_dir).
    { unfold _download_folder. apply frames_bind; [|auto with frames].
      apply crawl_loop_frames_download_dir. }
    rewrite (Hf w0). subst w0 expected. destruct katalog; reflexivity.
Qed.

End Commands.

Section QuickScript.
Import auth szybkie_pobieranie.

Variable env : Env.








End QuickScript.

(** ** Runs on the fixtures: the further properties *)

Section FurtherRuns.
Import fixtures auth video_info downloader search cli_handler.

Lemma get_video_info_quality_map_witness :
  [("720p", "https://cdn.cda.pl/2.mp4")] <> []
  /\ NoDup (dict.keys [("720p", "https://cdn.cda.pl/2.mp4")]).
Proof.
  exact (get_video_info_quality_map walled_site
           (Some "https://www.cda.pl/video/2") fresh
           (set_history [GET "https://www.cda.pl/video/2" []] fresh)
           (mkVideoInfo "Film 2" "2" [("720p", "https://cdn.cda.pl/2.mp4")]
              None None None None None)
           eq_refl).
Defined.

Lemma login_result_is_state_witness :
  logged_in (fst (login login_site "jan" "pw" fresh)) = true.
Proof.
  exact (proj1 (login_result_is_state login_site "jan" "pw" fresh
                  (fst (login login_site "jan" "pw" fresh)))
           true eq_refl).
Defined.

Lemma logout_result_is_state_witness :
  logged_in (fst (logout site_down signed_in)) = negb false
  /\ (false = true -> auth_consistent signed_in ->
      username (fst (logout site_down signed_in)) = None).
Proof.
  exact (logout_result_is_state site_down signed_in
           (fst (logout site_down signed_in)) false eq_refl).
Defined.

Lemma auth_state_stays_consistent_witness :
  auth_consistent (fst (login login_site "jan" "pw" fresh))
  /\ auth_consistent (fst (logout login_site fresh)).
Proof.
  refine (auth_state_stays_consistent login_site "jan" "pw" fresh _).
  split; [discriminate | reflexivity].
Defined.

Lemma csrf_token_source_witness :
  snd (get_csrf_token login_site fresh) = Return "abc123".
Proof.
  refine (proj1 (proj2 (csrf_token_source login_site fresh
                          (with_login_view
                             (mkLoginView None None None
                                (Some (mkTag EmptyString
                                         [("name", "csrf-token");
                                          ("content", "abc123")]))
                                []))
                          eq_refl))
            (mkTag EmptyString [("name", "csrf-token"); ("content", "abc123")])
            "abc123" eq_refl eq_refl eq_refl eq_refl eq_refl eq_refl _).
  discriminate.
Defined.

Lemma selection_after_resolution_witness :
  let vi :=
    mkVideoInfo "Film 2" "2" [("720p", "https://cdn.cda.pl/2.mp4")]
      None None None None None in
  (exists q u,
      _select_quality vi (Some "1080") = Return (q, u)
      /\ In (q, u) (video_info.download_links vi))
  /\ (exists q u,
         get_download_link vi (Some "1080") = Return (q, u)
         /\ In (q, u) (video_info.download_links vi)).
Proof.
  exact (selection_after_resolution walled_site
           (Some "https://www.cda.pl/video/2") fresh
           (set_history [GET "https://www.cda.pl/video/2" []] fresh)
           (mkVideoInfo "Film 2" "2" [("720p", "https://cdn.cda.pl/2.mp4")]
              None None None None None)
           (Some "1080") eq_refl).
Defined.

Lemma get_download_link_vs_select_quality_witness :
  let vi :=
    mkVideoInfo "t" "i" [("720p", "a"); ("1080p", "b")]
      None None None None None in
  exists u,
    dict.get "720p" (video_info.download_links vi) = Some u
    /\ _select_quality vi (Some "720") = Return ("720p", u)
    /\ get_download_link vi (Some "720") = get_best_quality vi
    /\ (get_download_link vi (Some "720") = _select_quality vi (Some "720")
        <-> get_best_quality vi = Return ("720p", u)).
Proof.
  exact (proj1 (proj2 (get_download_link_vs_select_quality
                         (mkVideoInfo "t" "i" [("720p", "a"); ("1080p", "b")]
                            None None None None None)
                         (Some "720")))
           "720" "720p" eq_refl eq_refl eq_refl).
Defined.


Lemma extract_download_links_escalation_witness :
  _extract_download_links button_site (button_page "/download/1") fresh
  = (fresh, Return []).
Proof.
  exact (proj1 (proj2 (proj2
                  (extract_download_links_escalation button_site
                     (button_page "/download/1") fresh)))
           (mkTag "Pobierz" [("href", "/download/1")]) "/download/1"
           eq_refl eq_refl eq_refl (or_introl eq_refl)).
Defined.


Lemma download_returns_written_file_witness :
  let w' :=
    fst (download walled_site (Some "https://www.cda.pl/video/2") None fresh) in
  let filepath := mkPath "pobrane_filmy/Film_2_720p.mp4" in
  exists w1 vi quality u,
    get_video_info walled_site (Some "https://www.cda.pl/video/2") fresh
      = (w1, Return vi)
    /\ _select_quality vi None = Return (quality, u)
    /\ In (quality, u) (video_info.download_links vi)
    /\ filepath
       = joinpath (download_dir fresh)
           (helpers.sanitize_filename (video_info.title vi) ++ "_" ++ quality ++ ".mp4")
    /\ file_size filepath (files w') <> None
    /\ download_dir w' = download_dir fresh.
Proof.
  exact (download_returns_written_file walled_site
           (Some "https://www.cda.pl/video/2") None fresh
           (fst (download walled_site (Some "https://www.cda.pl/video/2")
                   None fresh))
           (mkPath "pobrane_filmy/Film_2_720p.mp4") eq_refl).
Defined.

Lemma download_raises_only_DownloadError_witness :
  raises_in [DownloadError]
    (download site_down (Some "https://www.cda.pl/video/1") None).
Proof.
  exact (proj2 (download_raises_only_DownloadError site_down
                  (Some "https://www.cda.pl/video/1") None)
           (fun _ _ => I)).
Defined.

Lemma parse_results_normalized_witness :
  Forall (fun r => absolute_or_empty (search.url r)
                   /\ pystr.strip (search.title r) = search.title r)
    [record "A" "https://www.cda.pl/video/9"].
Proof.
  exact (parse_results_normalized
           (mkListingView None [fixtures.item "  A " "/video/9"])
           [record "A" "https://www.cda.pl/video/9"] eq_refl).
Defined.

Lemma bounded_crawl_terminates_witness :
  snd (_download_folder folder_site 1 "abc" None 1 (Some 1) false fresh)
  <> Return None
  /\ (let dispatched :=
        if false then filter premium [video1; video2; video3]
        else [video1; video2; video3] in
      _download_folder folder_site 1 "abc" None 1 (Some 1) false fresh
      = match
          _download_all_from_results folder_site dispatched None None
            (set_history [GET (folder_url "abc") []] fresh)
        with
        | (w2, Return (d, s)) =>
            (w2,
             Return
               (Some (d, Z.of_nat (length [video1; video2; video3])
                         - Z.of_nat (length dispatched) + s)))
        | (w2, Raise e) => (w2, Raise e)
        end).
Proof.
  assert (H : (1 <> 0) /\ Z.max 1 (1 - 1 + 1) <= Z.of_nat 1 /\ 1 <= 1).
  { split; [discriminate|]. split; discriminate. }
  destruct H as (H0 & Hfuel & Hle).
  pose proof (bounded_crawl_terminates folder_site 1 "abc" None 1 1 false
                fresh H0 Hfuel) as [Hends Hturn].
  split; [exact Hends|].
  exact (Hturn Hle (set_history [GET (folder_url "abc") []] fresh)
           video1 [video2; video3] eq_refl).
Defined.

Lemma download_folder_totals_witness :
  let w' :=
    mkWorld
      [GET "https://www.cda.pl/folder/abc" [];
       GET "https://www.cda.pl/video/1" [];
       GET "https://cdn.cda.pl/1.mp4" [];
       GET "https://www.cda.pl/video/2" [];
       GET "https://cdn.cda.pl/2.mp4" [];
       GET "https://www.cda.pl/video/3" [];
       GET "https://cdn.cda.pl/3.mp4" [];
       GET "https://www.cda.pl/folder/abc" [("page", PInt 2)]]
      false None (mkPath "pobrane_filmy")
      [(mkPath "pobrane_filmy/Film_1_720p.mp4", 1024);
       (mkPath "pobrane_filmy/Film_2_720p.mp4", 1024);
       (mkPath "pobrane_filmy/Film_3_720p.mp4", 1024)] in
  0 <= 3 /\ 0 <= 0
  /\ exists c',
       crawl_loop folder_site 2 "abc" None None false (mkCursor 1 0 0) fresh
       = (w', Return (Some c'))
       /\ total_downloaded c' = 3 /\ total_skipped c' = 0
       /\ 1 <= current_page c' <= 1 + Z.of_nat 2.
Proof.
  exact (download_folder_totals folder_site 2 "abc" None 1 None false fresh
           (mkWorld
              [GET "https://www.cda.pl/folder/abc" [];
               GET "https://www.cda.pl/video/1" [];
               GET "https://cdn.cda.pl/1.mp4" [];
               GET "https://www.cda.pl/video/2" [];
               GET "https://cdn.cda.pl/2.mp4" [];
               GET "https://www.cda.pl/video/3" [];
               GET "https://cdn.cda.pl/3.mp4" [];
               GET "https://www.cda.pl/folder/abc" [("page", PInt 2)]]
              false None (mkPath "pobrane_filmy")
              [(mkPath "pobrane_filmy/Film_1_720p.mp4", 1024);
               (mkPath "pobrane_filmy/Film_2_720p.mp4", 1024);
               (mkPath "pobrane_filmy/Film_3_720p.mp4", 1024)])
           3 0 eq_refl).
Defined.

Lemma premium_only_skips_page_witness :
  exists flow,
    crawl_turn folder_site "abc" None None true (mkCursor 1 0 0) fresh
    = (set_history [GET (folder_url "abc") []] fresh, Return flow)
    /\ cursor_of flow = mkCursor (1 + 1) 0 (0 + Z.of_nat 3).
Proof.
  exact (premium_only_skips_page folder_site "abc" None None
           (mkCursor 1 0 0) fresh
           (set_history [GET (folder_url "abc") []] fresh)
           video1 [video2; video3] eq_refl eq_refl).
Defined.

Lemma runner_crawl_vs_cli_witness :
  runner.download_folder_impl site_down 2 "abc" None 1 None false fresh
  = _download_folder site_down 2 "abc" None 1 None false fresh.
Proof.
  refine (proj1 (runner_crawl_vs_cli site_down "abc" None 1 None false) _
            2%nat fresh).
  intros page w. discriminate.
Defined.


Lemma ensure_logged_in_after_auth_witness :
  ensure_logged_in (fst (login login_site "jan" "pw" fresh))
  = (fst (login login_site "jan" "pw" fresh), Return true).
Proof.
  exact (proj1 (ensure_logged_in_after_auth login_site "jan" "pw" fresh
                  (fst (login login_site "jan" "pw" fresh)) true)
           eq_refl).
Defined.

(** A relative link on the download button is never followed, so the
    video page of the fixture, whose links are all on the download page,
    does not resolve; with the full address on the button it does. *)
Example relative_button_is_not_followed :
  get_video_info button_site (Some "https://www.cda.pl/video/1") fresh
  = (set_history [GET "https://www.cda.pl/video/1" []] fresh,
     Raise VideoInfoError)
  /\ snd (_extract_download_links button_site
            (button_page "https://www.cda.pl/download/1") fresh)
     = Return [("720p", "https://cdn.cda.pl/1.mp4")].
Proof. split; reflexivity. Qed.

(** A disk that takes 1000 bytes: the third chunk is refused, the call
    raises [FileError], and the file stays with the 600 bytes of the
    first. *)
Example write_refused_by_the_disk :
  _download_file small_disk_site "https://cdn.cda.pl/2.mp4" (mkPath "f.mp4")
    fresh
  = (mkWorld [GET "https://cdn.cda.pl/2.mp4" []] false None
       (mkPath "pobrane_filmy") [(mkPath "f.mp4", 600)],
     Raise FileError).
Proof. reflexivity. Qed.

(** What [int] reads and what it does not. *)
Example int_of_str_cases :
  pystr.int_of_str " 1_124 " = Some 1124
  /\ pystr.int_of_str "-0012" = Some (-12)
  /\ pystr.int_of_str "1 024" = None
  /\ pystr.int_of_str "1__0" = None
  /\ pystr.int_of_str "12_" = None
  /\ pystr.int_of_str "+" = None
  /\ pystr.int_of_str EmptyString = None.
Proof. repeat split. Qed.

(** Which addresses leave [requests]. *)
Example has_http_scheme_cases :
  has_http_scheme "https://www.cda.pl/video/1" = true
  /\ has_http_scheme "  HTTP://cda.pl" = true
  /\ has_http_scheme "/video/1" = false
  /\ has_http_scheme "www.cda.pl/video/1" = false
  /\ has_http_scheme "httpx://cda.pl" = false
  /\ has_http_scheme "ftp://cda.pl/f.mp4" = false
  /\ has_http_scheme EmptyString = false.
Proof. repeat split. Qed.

End FurtherRuns.
